(** * financial.ai: the simulated market data engine of [backend/server.py]

    A shallow embedding of [FinancialDataSimulator], of the endpoints that
    wrap it ([get_market_summary], [get_stock_price_history],
    [get_correlation_matrix]) and of the [TTLCache] in front of them.

    Conventions of the embedding.
    - Python floats are idealised as exact rationals ([Q]); every
      comparison the code makes is made here on [Q] with the same operands.
    - Random draws are explicit: every call of [random.*] / [np.random.*]
      reads one field of a draw record handed in by the environment.
      [np.random.uniform(lo, hi)] and [random.uniform(lo, hi)] are
      [lo + (hi - lo) * u] for a unit draw [u]; [np.random.normal(loc, s)]
      is [loc + s * z] for a standard-normal draw [z]; [random.randint]
      hands back the integer itself.
    - Clocks are explicit: [datetime.utcnow()] is a reading in microseconds,
      [TTLCache]'s timer a reading in seconds.
    - [self.base_prices] is a finite map from symbols to prices, the cache
      an association list kept in least-recently-used order. *)

From Stdlib Require Import QArith Qround Qabs Qminmax ZArith Lia Lqa.
From Stdlib Require Import List Permutation Sorted.
From stdpp Require Import gmap strings pretty.
Import ListNotations.

(** ** Numbers *)

Module Num.

Local Open Scope Q_scope.

(** [round(x)] of Python: nearest integer, ties to the even one. *)
Definition round_half_even (x : Q) : Z :=
  let f := Qfloor x in
  match Qcompare (x - inject_Z f) (1 # 2) with
  | Lt => f
  | Gt => (f + 1)%Z
  | Eq => if Z.even f then f else (f + 1)%Z
  end.

(** [round(x, 2)]. *)
Definition round2 (x : Q) : Q := inject_Z (round_half_even (x * 100)) / 100.

(** [int(x)] on a float: truncation towards zero. *)
Definition py_int (x : Q) : Z := Z.quot (Qnum x) (Zpos (Qden x)).

(** [max(a, b, c)] and [min(a, b, c)] of Python: the first extremal
    argument, found by a left-to-right scan. *)
Definition max3 (a b c : Q) : Q := Qmax (Qmax a b) c.
Definition min3 (a b c : Q) : Q := Qmin (Qmin a b) c.

(** [np.random.uniform(low, high)] and [random.uniform(a, b)] over a unit
    draw [u]; [np.random.normal(loc, scale)] over a standard-normal [z]. *)
Definition uniform (low high u : Q) : Q := low + (high - low) * u.
Definition normal (loc scale z : Q) : Q := loc + scale * z.

Definition unit_draw (u : Q) : Prop := 0 <= u /\ u < 1.

End Num.
Export Num.

(** ** Data models *)

(** [datetime] values are microseconds since the epoch. *)
Definition datetime := Z.

Definition microseconds_per_day : Z := 86400000000.

(** [timedelta(days=k)] *)
Definition timedelta_days (k : Z) : Z := k * microseconds_per_day.

(** [class StockPrice(BaseModel)]; [open] is a keyword of the language the
    embedding is written in, hence [open_]. *)
Record StockPrice := {
  sp_symbol : string;
  sp_timestamp : datetime;
  open_ : Q;
  high : Q;
  low : Q;
  close : Q;
  sp_volume : Z;
  vwap : option Q
}.

(** [class MarketData(BaseModel)] *)
Record MarketData := {
  symbol : string;
  current_price : Q;
  change : Q;
  change_percent : Q;
  volume : Z;
  market_cap : option Q;
  pe_ratio : option Q;
  timestamp : datetime
}.

(** [class MarketSummary(BaseModel)] *)
Record MarketSummary := {
  total_symbols : Z;
  total_volume : Z;
  total_market_cap : Q;
  top_gainers : list MarketData;
  top_losers : list MarketData;
  most_active : list MarketData;
  ms_timestamp : datetime
}.

(** ** The simulator *)

(** [FinancialDataSimulator]: [self.symbols] and [self.base_prices]. *)
Record FinancialDataSimulator := {
  symbols : list string;
  base_prices : gmap string Q
}.

(** The draws of one iteration of the loop of
    [generate_realistic_price_data], in the order of the calls. *)
Record DayDraws := {
  utcnow : datetime;     (* datetime.utcnow() *)
  shock_z : Q;           (* np.random.normal(0, 1) *)
  vol_u : Q;             (* np.random.uniform(0.5, 2.0) *)
  high_z : Q;            (* np.random.normal(0, daily_volatility), for high *)
  low_z : Q;             (* np.random.normal(0, daily_volatility), for low *)
  open_u : Q;            (* np.random.uniform(0.98, 1.02) *)
  base_volume : Z;       (* random.randint(1000000, 10000000) *)
  volume_z : Q           (* np.random.normal(0, 0.5) *)
}.

(** What one call of [generate_realistic_price_data] reads from outside:
    the unit draw of [random.uniform(50, 500)] (used for an unknown symbol
    only) and the draws of iteration [i]. *)
Record GenEnv := {
  init_u : Q;
  day : nat -> DayDraws
}.

Definition drift : Q := 0.0002.
Definition volatility : Q := 0.02.

(** The body of [for i in range(days)]: from [current_price] before the
    iteration to the appended [StockPrice] and [current_price] after it. *)
Definition day_step (sym : string) (days : Z) (d : DayDraws) (i : nat)
    (current_price : Q) : StockPrice * Q :=
  let date := (utcnow d - timedelta_days (days - Z.of_nat i))%Z in
  let random_shock := normal 0 1 (shock_z d) in
  let price_change := (current_price * (drift + volatility * random_shock))%Q in
  let current_price := Qmax (current_price + price_change) 0.01 in
  let daily_volatility := (volatility * uniform 0.5 2.0 (vol_u d))%Q in
  let high := (current_price * (1 + Qabs (normal 0 daily_volatility (high_z d))))%Q in
  let low := (current_price * (1 - Qabs (normal 0 daily_volatility (low_z d))))%Q in
  let open_price := (current_price * uniform 0.98 1.02 (open_u d))%Q in
  let high := max3 high open_price current_price in
  let low := min3 low open_price current_price in
  let volume_multiplier := (1 + Qabs (normal 0 0.5 (volume_z d)))%Q in
  let volume := py_int (inject_Z (base_volume d) * volume_multiplier) in
  let vwap := ((high + low + current_price) / 3)%Q in
  ({| sp_symbol := sym;
      sp_timestamp := date;
      open_ := round2 open_price;
      high := round2 high;
      low := round2 low;
      close := round2 current_price;
      sp_volume := volume;
      vwap := Some (round2 vwap) |},
   current_price).

(** The loop itself, over the indices [range(days)] still to run. *)
Fixpoint price_loop (sym : string) (days : Z) (env : GenEnv) (idx : list nat)
    (current_price : Q) : list StockPrice :=
  match idx with
  | [] => []
  | i :: rest =>
      let '(p, current_price) := day_step sym days (day env i) i current_price in
      p :: price_loop sym days env rest current_price
  end.

(** [range(days)]: empty for [days <= 0]. *)
Definition range (days : Z) : list nat := seq 0 (Z.to_nat days).

(** [FinancialDataSimulator.generate_realistic_price_data]: the returned
    list and the simulator afterwards. *)
Definition generate_realistic_price_data (self : FinancialDataSimulator)
    (sym : string) (days : Z) (env : GenEnv)
    : list StockPrice * FinancialDataSimulator :=
  let '(base_price, self) :=
    match base_prices self !! sym with
    | Some p => (p, self)
    | None =>
        let p := uniform 50 500 (init_u env) in
        (p, {| symbols := symbols self;
               base_prices := <[sym := p]> (base_prices self) |})
    end in
  (price_loop sym days env (range days) base_price, self).

(** Exceptions the modelled code can raise. *)
Inductive Exception :=
| KeyError (k : string)
| ZeroDivisionError
| ValueError (msg : string).

Inductive result (A : Type) :=
| Ok (a : A)
| Raise (e : Exception).
Arguments Ok {A} a.
Arguments Raise {A} e.

(** The draws of one iteration of the loop of [generate_market_data]. *)
Record QuoteDraws := {
  price_u : Q;           (* np.random.uniform(0.95, 1.05) *)
  prev_u : Q;            (* np.random.uniform(0.98, 1.02) *)
  quote_volume : Z;      (* random.randint(500000, 5000000) *)
  cap_shares : Z;        (* random.randint(1000000, 10000000) *)
  pe_u : Q;              (* random.uniform(10, 35) *)
  quote_utcnow : datetime  (* default_factory of MarketData.timestamp *)
}.

(** Truth value of an [Optional[float]]: [None] and [0.0] are false. *)
Definition truthy (o : option Q) : bool :=
  match o with
  | Some c => negb (Qeq_bool c 0)
  | None => false
  end.

(** The quantities of one iteration of [generate_market_data] before they
    are rounded: [current_price] and [prev_close]. *)
Definition quote_current_price (stored : Q) (d : QuoteDraws) : Q :=
  (stored * uniform 0.95 1.05 (price_u d))%Q.
Definition quote_prev_close (stored : Q) (d : QuoteDraws) : Q :=
  (quote_current_price stored d * uniform 0.98 1.02 (prev_u d))%Q.

(** The loop of [generate_market_data] over the symbols still to visit;
    [i] is the index of the iteration. An exception leaves the updates of
    the earlier iterations in place. *)
Fixpoint market_loop (syms : list string) (i : nat) (env : nat -> QuoteDraws)
    (self : FinancialDataSimulator)
    : result (list MarketData) * FinancialDataSimulator :=
  match syms with
  | [] => (Ok [], self)
  | sym :: rest =>
      match base_prices self !! sym with
      | None => (Raise (KeyError sym), self)
      | Some stored =>
          let d := env i in
          let current_price := quote_current_price stored d in
          let prev_close := quote_prev_close stored d in
          let change := (current_price - prev_close)%Q in
          if Qeq_bool prev_close 0 then (Raise ZeroDivisionError, self) else
          let change_percent := ((change / prev_close) * 100)%Q in
          let volume := quote_volume d in
          let market_cap :=
            if negb (String.eqb sym "SPY")
            then Some (current_price * inject_Z (cap_shares d))%Q
            else None in
          let pe_ratio :=
            if truthy market_cap then Some (uniform 10 35 (pe_u d)) else None in
          let md := {| symbol := sym;
                       current_price := round2 current_price;
                       change := round2 change;
                       change_percent := round2 change_percent;
                       volume := volume;
                       market_cap := market_cap;
                       pe_ratio := pe_ratio;
                       timestamp := quote_utcnow d |} in
          let self := {| symbols := symbols self;
                         base_prices := <[sym := current_price]> (base_prices self) |} in
          let '(r, self) := market_loop rest (S i) env self in
          (match r with
           | Ok market_data => Ok (md :: market_data)
           | Raise e => Raise e
           end, self)
      end
  end.

(** [FinancialDataSimulator.generate_market_data] *)
Definition generate_market_data (self : FinancialDataSimulator)
    (env : nat -> QuoteDraws)
    : result (list MarketData) * FinancialDataSimulator :=
  market_loop (symbols self) 0 env self.

(** ** Ranking and totals *)

(** [sorted(l, key=key, reverse=True)]: the stable sort into descending
    order of [key]; elements with equal keys keep their order in [l]. *)
Section Sorted.
Context {A K : Type} (leb : K -> K -> bool) (key : A -> K).

Fixpoint insert_desc (x : A) (l : list A) : list A :=
  match l with
  | [] => [x]
  | y :: l' =>
      if leb (key y) (key x) then x :: y :: l' else y :: insert_desc x l'
  end.

Fixpoint sorted_reverse (l : list A) : list A :=
  match l with
  | [] => []
  | x :: l' => insert_desc x (sorted_reverse l')
  end.
End Sorted.

(** The slices [l[:n]] and [l[-n:]] for [n > 0]. *)
Definition slice_to {A} (n : nat) (l : list A) : list A := firstn n l.
Definition slice_last {A} (n : nat) (l : list A) : list A :=
  skipn (length l - n) l.

(** [sum(md.volume for md in market_data)] *)
Definition sum_volume (market_data : list MarketData) : Z :=
  fold_left (fun acc md => (acc + volume md)%Z) market_data 0%Z.

(** [sum(md.market_cap for md in market_data if md.market_cap)] *)
Definition sum_market_cap (market_data : list MarketData) : Q :=
  fold_left (fun acc md =>
               match market_cap md with
               | Some c => if truthy (market_cap md) then (acc + c)%Q else acc
               | None => acc
               end) market_data 0%Q.

(** Lines 199-213 of [get_market_summary]: the summary of a batch, stamped
    with the reading [now] of [datetime.utcnow]. *)
Definition summarize (market_data : list MarketData) (now : datetime)
    : MarketSummary :=
  let sorted_by_change := sorted_reverse Qle_bool change_percent market_data in
  let sorted_by_volume := sorted_reverse Z.leb volume market_data in
  let total_volume := sum_volume market_data in
  let total_market_cap := sum_market_cap market_data in
  {| total_symbols := Z.of_nat (length market_data);
     total_volume := total_volume;
     total_market_cap := total_market_cap;
     top_gainers := slice_to 5 sorted_by_change;
     top_losers := slice_last 5 sorted_by_change;
     most_active := slice_to 5 sorted_by_volume;
     ms_timestamp := now |}.

(** ** The cache

    [cachetools.TTLCache] with values of size 1. The entries are kept in
    the order of last use, least recently used first; [expires] is the
    timer reading at which an entry stops being visible. Timer readings
    are taken to be non-decreasing, as [time.monotonic] gives them: with
    one [ttl] for all entries, the entries then expire in the order they
    were set, and [expire] removes exactly those whose time has come. *)
Module TTLCache.
Section Cache.
Context {V : Type}.

Record Link := { l_key : string; l_value : V; l_expires : Q }.

Record t := { maxsize : Z; ttl : Q; links : list Link }.

(** [TTLCache(maxsize, ttl)] *)
Definition create (maxsize : Z) (ttl : Q) : t :=
  {| maxsize := maxsize; ttl := ttl; links := [] |}.

Definition with_links (c : t) (l : list Link) : t :=
  {| maxsize := maxsize c; ttl := ttl c; links := l |}.

Definition is_key (k : string) (l : Link) : bool := String.eqb (l_key l) k.

Definition unexpired (now : Q) (l : Link) : bool :=
  negb (Qle_bool (l_expires l) now).

Definition getlink (c : t) (k : string) : option Link :=
  find (is_key k) (links c).

Definition unlink (k : string) (l : list Link) : list Link :=
  List.filter (fun e => negb (is_key k e)) l.

(** [move_to_end] of the link order *)
Definition touch (k : string) (l : list Link) : list Link :=
  match find (is_key k) l with
  | Some e => unlink k l ++ [e]
  | None => l
  end.

(** [key in cache]: present and [timer() < expires]; the order of use is
    left alone. *)
Definition contains (c : t) (k : string) (now : Q) : bool :=
  match getlink c k with
  | Some e => unexpired now e
  | None => false
  end.

(** [cache[key]]: the value of an unexpired entry, which becomes the most
    recently used; [KeyError] otherwise. *)
Definition getitem (c : t) (k : string) (now : Q) : result V * t :=
  match getlink c k with
  | Some e =>
      (if unexpired now e then Ok (l_value e) else Raise (KeyError k),
       with_links c (touch k (links c)))
  | None => (Raise (KeyError k), c)
  end.

(** [expire(time)] *)
Definition expire (now : Q) (l : list Link) : list Link :=
  List.filter (unexpired now) l.

(** [while currsize + 1 > maxsize: popitem()], each [popitem] taking the
    least recently used entry; [None] when [popitem] finds the cache
    empty. *)
Fixpoint make_room (maxsize : Z) (l : list Link) : option (list Link) :=
  if (Z.of_nat (length l) + 1 >? maxsize)%Z then
    match l with
    | [] => None
    | _ :: l' => make_room maxsize l'
    end
  else Some l.

(** [cache[key] = value] at timer reading [now]. *)
Definition setitem (c : t) (k : string) (v : V) (now : Q) : result unit * t :=
  let l := expire now (links c) in
  if (1 >? maxsize c)%Z then (Raise (ValueError "value too large"), with_links c l)
  else
    let room :=
      match find (is_key k) l with
      | Some _ => Some l
      | None => make_room (maxsize c) l
      end in
    match room with
    | None => (Raise (KeyError "cache is empty"), with_links c [])
    | Some l =>
        (Ok tt,
         with_links c
           (unlink k l ++ [{| l_key := k; l_value := v;
                              l_expires := (now + ttl c)%Q |}]))
    end.
End Cache.
Arguments Link : clear implicits.
Arguments t : clear implicits.
End TTLCache.

(** ** Correlation

    [np.corrcoef] divides the covariance matrix by the standard deviations
    of the rows; a square root leaves [Q], so an entry is kept as the
    quotient [c / sqrt d] it denotes, next to the two values float division
    gives when the divisor is zero.

    Sums, means and covariances are the exact ones. Those of [np.corrcoef]
    are the same where its float sums are exact, as on a series of whole
    numbers, and are within rounding of them otherwise. What rounding can
    break for a single entry (an exact 1 on the diagonal, equal entries at
    [(i, j)] and [(j, i)], a variance of exactly zero for a flat series
    whose float mean is inexact, such as 0.01) is not stated of the code
    below; what the final [np.clip] and a zero divisor give is. *)
Inductive npfloat :=
| NaN
| Inf (negative : bool)
| Surd (c d : Q).

Definition is_nan (x : npfloat) : bool :=
  match x with NaN => true | _ => false end.

(** [x / sqrt(d)] in float arithmetic: [0/0] and anything over the square
    root of a negative number are [nan], a non-zero value over [0] is an
    infinity. *)
Definition div_sqrt (x : npfloat) (d : Q) : npfloat :=
  match x with
  | NaN => NaN
  | Inf s => if Qle_bool 0 d then Inf s else NaN
  | Surd c e =>
      if Qeq_bool d 0 then
        if Qeq_bool c 0 then NaN else Inf (negb (Qle_bool 0 c))
      else if Qle_bool 0 d then Surd c (e * d)
      else NaN
  end.

(** [np.clip(x, -1, 1)] *)
Definition clip (x : npfloat) : npfloat :=
  match x with
  | NaN => NaN
  | Inf s => Surd (if s then -1 else 1) 1
  | Surd c d =>
      if Qle_bool (c * c) d then Surd c d
      else Surd (if Qle_bool 0 c then 1 else -1) 1
  end.

Definition Qsum (l : list Q) : Q := fold_left Qplus l 0%Q.

Definition mean (row : list Q) : Q := (Qsum row / inject_Z (Z.of_nat (length row)))%Q.

Definition centered (row : list Q) : list Q :=
  let avg := mean row in map (fun x => x - avg)%Q row.

Definition dot (xs ys : list Q) : Q :=
  Qsum (map (fun p => fst p * snd p)%Q (combine xs ys)).

(** Entry of [np.cov(m)] for two rows of [n >= 2] observations each
    ([ddof = 1]; the endpoint always passes rows of 30). *)
Definition cov (xs ys : list Q) : Q :=
  (dot (centered xs) (centered ys) / inject_Z (Z.of_nat (length xs) - 1))%Q.

Definition variance (xs : list Q) : Q := cov xs xs.

(** Entry [(i, j)] of [np.corrcoef(m)] for rows [xs] and [ys]:
    [c /= stddev[:, None]; c /= stddev[None, :]; clip]. *)
Definition corr_entry (xs ys : list Q) : npfloat :=
  clip (div_sqrt (div_sqrt (Surd (cov xs ys) 1) (variance xs)) (variance ys)).

Definition corrcoef (m : list (list Q)) : list (list npfloat) :=
  map (fun xs => map (fun ys => corr_entry xs ys) m) m.

(** ** The endpoints *)

(** What the endpoints put into the cache. *)
Inductive CacheValue :=
| SummaryValue (summary : MarketSummary)
| HistoryValue (result : list StockPrice)
| CorrelationValue (correlation_matrix : list (list npfloat)).

(** Module state: [data_simulator] and [cache]. *)
Record App := {
  data_simulator : FinancialDataSimulator;
  cache : TTLCache.t CacheValue
}.

(** The readings of the cache's timer at the three places an endpoint
    touches the cache. *)
Record Timer := { t_contains : Q; t_getitem : Q; t_setitem : Q }.

(** How a request ends: with a value; rejected by the validation of a
    [Query(ge=..., le=...)] parameter before the handler runs (HTTP 422);
    with the [HTTPException] of an [except] clause; or with an exception
    nothing catches. *)
Inductive Response :=
| Return (v : CacheValue)
| RequestValidationError (param : string)
| HTTPException (status_code : Z) (detail : string)
| Unhandled (e : Exception).

(** [if cache_key in cache: return cache[cache_key]], else [producer]. *)
Definition cached (cache_key : string) (tm : Timer) (app : App)
    (producer : App -> Response * App) : Response * App :=
  if TTLCache.contains (cache app) cache_key (t_contains tm) then
    let '(r, c) := TTLCache.getitem (cache app) cache_key (t_getitem tm) in
    (match r with Ok v => Return v | Raise e => Unhandled e end,
     {| data_simulator := data_simulator app; cache := c |})
  else producer app.

(** [cache[cache_key] = value; return value] inside [try], [detail] being
    the message of the [except] clause. *)
Definition store_and_return (cache_key : string) (v : CacheValue) (tm : Timer)
    (detail : string) (sim : FinancialDataSimulator)
    (c : TTLCache.t CacheValue) : Response * App :=
  let '(r, c) := TTLCache.setitem c cache_key v (t_setitem tm) in
  (match r with
   | Ok _ => Return v
   | Raise _ => HTTPException 500 detail
   end, {| data_simulator := sim; cache := c |}).

(** [get_market_summary]; [env] are the draws of [generate_market_data],
    [now] the reading of [datetime.utcnow] that stamps the summary. *)
Definition get_market_summary (tm : Timer) (env : nat -> QuoteDraws)
    (now : datetime) (app : App) : Response * App :=
  let cache_key := "market_summary" in
  cached cache_key tm app (fun app =>
    let detail := "Failed to generate market summary" in
    let '(r, sim) := generate_market_data (data_simulator app) env in
    match r with
    | Raise _ =>
        (HTTPException 500 detail, {| data_simulator := sim; cache := cache app |})
    | Ok market_data =>
        let summary := summarize market_data now in
        store_and_return cache_key (SummaryValue summary) tm detail sim (cache app)
    end).

(** [str.upper] on ASCII letters. *)
Definition upper_ascii (c : Ascii.ascii) : Ascii.ascii :=
  let n := Ascii.N_of_ascii c in
  if ((97 <=? n) && (n <=? 122))%N then Ascii.ascii_of_N (n - 32) else c.

Fixpoint upper (s : string) : string :=
  match s with
  | EmptyString => EmptyString
  | String c s' => String (upper_ascii c) (upper s')
  end.

(** [get_stock_price_history]; [days] is declared
    [Query(default=30, ge=1, le=365)], so a request with [days] outside
    [1, 365] is rejected before the handler runs. *)
Definition get_stock_price_history (symbol : string) (days : Z) (tm : Timer)
    (env : GenEnv) (app : App) : Response * App :=
  if negb ((1 <=? days)%Z && (days <=? 365)%Z) then
    (RequestValidationError "days", app)
  else
    let cache_key := "price_history_" +:+ symbol +:+ "_" +:+ pretty days in
    cached cache_key tm app (fun app =>
      let detail := "Failed to get price history for " +:+ symbol in
      let '(price_data, sim) :=
        generate_realistic_price_data (data_simulator app) (upper symbol) days env in
      store_and_return cache_key (HistoryValue price_data) tm detail sim (cache app)).

Definition major_symbols : list string := ["JPM"; "GS"; "AAPL"; "MSFT"; "SPY"].

(** The loop [for symbol in major_symbols] of [get_correlation_matrix];
    [envs k] are the draws of the [k]-th call of the generator. *)
Fixpoint price_matrix_loop (syms : list string) (k : nat) (envs : nat -> GenEnv)
    (sim : FinancialDataSimulator) : list (list Q) * FinancialDataSimulator :=
  match syms with
  | [] => ([], sim)
  | sym :: rest =>
      let '(prices, sim) := generate_realistic_price_data sim sym 30 (envs k) in
      let price_changes := map close prices in
      let '(price_matrix, sim) := price_matrix_loop rest (S k) envs sim in
      (price_changes :: price_matrix, sim)
  end.

(** [get_correlation_matrix], up to the matrix the chart is drawn from. *)
Definition get_correlation_matrix (tm : Timer) (envs : nat -> GenEnv) (app : App)
    : Response * App :=
  let cache_key := "correlation_matrix" in
  cached cache_key tm app (fun app =>
    let detail := "Failed to generate correlation matrix" in
    let '(price_matrix, sim) :=
      price_matrix_loop major_symbols 0 envs (data_simulator app) in
    let correlation_matrix := corrcoef price_matrix in
    store_and_return cache_key (CorrelationValue correlation_matrix) tm detail
      sim (cache app)).

(** [cache = TTLCache(maxsize=1000, ttl=300)] *)
Definition initial_cache : TTLCache.t CacheValue := TTLCache.create 1000 300.

(** [FinancialDataSimulator.__init__]; [u k] is the unit draw behind the
    [random.uniform(50, 500)] of the [k]-th symbol. *)
Definition tracked_symbols : list string :=
  ["JPM"; "GS"; "MS"; "BAC"; "C"; "WFC"; "AAPL"; "MSFT"; "GOOGL"; "AMZN";
   "TSLA"; "META"; "NVDA"; "SPY"; "QQQ"; "DIA"; "IWM"; "VTI"; "XLF"; "XLK"].

Definition init_base_prices (u : nat -> Q) : gmap string Q :=
  fold_left (fun m ks => <[snd ks := uniform 50 500 (u (fst ks))]> m)
            (combine (seq 0 (length tracked_symbols)) tracked_symbols) ∅.

Definition new_simulator (u : nat -> Q) : FinancialDataSimulator :=
  {| symbols := tracked_symbols; base_prices := init_base_prices u |}.

(** ** Admissible draws and the vocabulary of the properties *)

(** The draws a day can really see: unit draws in [[0, 1)], the integer of
    [random.randint(1000000, 10000000)] within its bounds. *)
Definition valid_day (d : DayDraws) : Prop :=
  unit_draw (vol_u d) /\ unit_draw (open_u d) /\
  (1000000 <= base_volume d <= 10000000)%Z.

(** A clock that does not run backwards over the iterations of one call. *)
Definition clock_monotone (env : GenEnv) : Prop :=
  forall i, (utcnow (day env i) <= utcnow (day env (S i)))%Z.

(** The last element of a list. *)
Definition last_point (prices : list StockPrice) : option StockPrice :=
  nth_error prices (length prices - 1).

(** The reading of [datetime.utcnow] in the last iteration of a call for
    [days] days: the latest "now" the call sees. *)
Definition last_now (env : GenEnv) (days : Z) : datetime :=
  utcnow (day env (Z.to_nat days - 1)).

(** The timestamps of a history as claimed: one point per day, each one day
    after the one before, the last one within [tol] of now. *)
Definition history_ends_now (tol : Z) (days : Z) (env : GenEnv)
    (prices : list StockPrice) : Prop :=
  length prices = Z.to_nat days /\
  (forall i p q, nth_error prices i = Some p -> nth_error prices (S i) = Some q ->
     sp_timestamp q = (sp_timestamp p + microseconds_per_day)%Z) /\
  (forall p, last_point prices = Some p ->
     (Z.abs (last_now env days - sp_timestamp p) <= tol)%Z).

(** The [daily_volatility] of a day. *)
Definition daily_volatility (d : DayDraws) : Q :=
  (volatility * uniform 0.5 2.0 (vol_u d))%Q.

(** A run of calls of [generate_realistic_price_data], each with its
    symbol, day count and draws: the simulator after the last one. *)
Definition history_calls (calls : list (string * Z * GenEnv))
    (self : FinancialDataSimulator) : FinancialDataSimulator :=
  fold_left (fun self c =>
               snd (generate_realistic_price_data self (fst (fst c)) (snd (fst c)) (snd c)))
            calls self.

(** Lists in descending and in ascending order of a key. *)
Definition descending {A K} (le : K -> K -> Prop) (key : A -> K) (l : list A) : Prop :=
  StronglySorted (fun a b => le (key b) (key a)) l.
Definition ascending {A K} (le : K -> K -> Prop) (key : A -> K) (l : list A) : Prop :=
  StronglySorted (fun a b => le (key a) (key b)) l.

(** The market caps a batch carries, zeros included. *)
Definition present_caps (market_data : list MarketData) : list Q :=
  omap market_cap market_data.

(** Every tracked symbol is on file with a positive price. *)
Definition prices_positive (self : FinancialDataSimulator) : Prop :=
  forall s, In s (symbols self) ->
    exists p, base_prices self !! s = Some p /\ (0 < p)%Q.

(** The unit draws of the [k]-th quote are in [[0, 1)]. *)
Definition valid_quote (d : QuoteDraws) : Prop :=
  unit_draw (price_u d) /\ unit_draw (prev_u d).

(** Entry [(i, j)] of a matrix. *)
Definition entry {A} (m : list (list A)) (i j : nat) : option A :=
  match nth_error m i with
  | Some row => nth_error row j
  | None => None
  end.

(** ** The remaining endpoints and the life of the process *)

(** [get_available_symbols]: the fields ["symbols"] and ["count"]. *)
Definition get_available_symbols (app : App) : list string * Z :=
  (symbols (data_simulator app),
   Z.of_nat (length (symbols (data_simulator app)))).

(** [len(cache)] at the timer reading [now]: the entries not yet expired. *)
Definition cache_len (c : TTLCache.t CacheValue) (now : Q) : Z :=
  Z.of_nat (length (TTLCache.expire now (TTLCache.links c))).

(** The dictionary [get_performance_metrics] returns. *)
Record PerformanceMetrics := {
  cache_size : Z;
  cache_maxsize : Z;
  cache_ttl : Q;
  active_symbols : Z;
  uptime : string;
  avg_response_time : string
}.

(** [get_performance_metrics]; [now] is the timer reading of [len(cache)]. *)
Definition get_performance_metrics (now : Q) (app : App) : PerformanceMetrics :=
  {| cache_size := cache_len (cache app) now;
     cache_maxsize := TTLCache.maxsize (cache app);
     cache_ttl := TTLCache.ttl (cache app);
     active_symbols := Z.of_nat (length (symbols (data_simulator app)));
     uptime := "99.9%";
     avg_response_time := "50ms" |}.

(** The cache key of [get_stock_price_history]. *)
Definition price_history_key (symbol : string) (days : Z) : string :=
  "price_history_" +:+ symbol +:+ "_" +:+ pretty days.

(** The module state at start-up: [data_simulator =
    FinancialDataSimulator()] and the empty [cache]. *)
Definition boot (u : nat -> Q) : App :=
  {| data_simulator := new_simulator u; cache := initial_cache |}.

(** The requests that reach the simulator, each carrying what its handler
    reads from outside. *)
Inductive Request :=
| MarketSummaryRequest (tm : Timer) (env : nat -> QuoteDraws) (now : datetime)
| PriceHistoryRequest (symbol : string) (days : Z) (tm : Timer) (env : GenEnv)
| CorrelationRequest (tm : Timer) (envs : nat -> GenEnv).

Definition serve (r : Request) (app : App) : Response * App :=
  match r with
  | MarketSummaryRequest tm env now => get_market_summary tm env now app
  | PriceHistoryRequest symbol days tm env =>
      get_stock_price_history symbol days tm env app
  | CorrelationRequest tm envs => get_correlation_matrix tm envs app
  end.

(** The module state after a run of requests. *)
Definition serve_all (requests : list Request) (app : App) : App :=
  fold_left (fun app r => snd (serve r app)) requests app.

(** Requests whose unit draws are in [[0, 1)]. *)
Definition valid_request (r : Request) : Prop :=
  match r with
  | MarketSummaryRequest _ env _ => forall k, valid_quote (env k)
  | PriceHistoryRequest _ _ _ env => unit_draw (init_u env)
  | CorrelationRequest _ envs => forall k, unit_draw (init_u (envs k))
  end.

(** What the simulator of a running process satisfies: the tracked symbols
    are the twenty of start-up, each on file, and every price on file is
    positive. *)
Definition healthy_sim (sim : FinancialDataSimulator) : Prop :=
  symbols sim = tracked_symbols /\
  (forall s, In s tracked_symbols -> is_Some (base_prices sim !! s)) /\
  (forall s p, base_prices sim !! s = Some p -> (0 < p)%Q).

(** What the cache of a running process satisfies: it is the one created at
    start-up, within its capacity. *)
Definition healthy_cache (c : TTLCache.t CacheValue) : Prop :=
  TTLCache.maxsize c = 1000%Z /\
  TTLCache.ttl c = 300%Q /\
  (length (TTLCache.links c) <= 1000)%nat.

Definition healthy (app : App) : Prop :=
  healthy_sim (data_simulator app) /\ healthy_cache (cache app).

(** All the draws of a quote within the bounds of their calls. *)
Definition valid_quote_draws (d : QuoteDraws) : Prop :=
  valid_quote d /\ unit_draw (pe_u d) /\
  (1000000 <= cap_shares d <= 10000000)%Z /\
  (500000 <= quote_volume d <= 5000000)%Z.

(** The characters of a string. *)
Fixpoint chars (s : string) : list Ascii.ascii :=
  match s with
  | EmptyString => []
  | String c s' => c :: chars s'
  end.

(** The quote one iteration of [generate_market_data] appends for [sym],
    from the price [stored] it finds on file and its draws [d]. *)
Definition make_quote (sym : string) (stored : Q) (d : QuoteDraws) : MarketData :=
  let current_price := quote_current_price stored d in
  let prev_close := quote_prev_close stored d in
  let change := (current_price - prev_close)%Q in
  let market_cap :=
    if negb (String.eqb sym "SPY")
    then Some (current_price * inject_Z (cap_shares d))%Q
    else None in
  {| symbol := sym;
     current_price := round2 current_price;
     change := round2 change;
     change_percent := round2 ((change / prev_close) * 100);
     volume := quote_volume d;
     market_cap := market_cap;
     pe_ratio := if truthy market_cap then Some (uniform 10 35 (pe_u d)) else None;
     timestamp := quote_utcnow d |}.

(** The elements whose key ties with [c]: neither below nor above it. *)
Definition ties {A K} (leb : K -> K -> bool) (key : A -> K) (c : K) (x : A) : bool :=
  leb (key x) c && leb c (key x).

(** The character ["_"] that separates the parts of a cache key. *)
Definition underscore : Ascii.ascii := Ascii.ascii_of_nat 95.

(** The range of [datetime]: [datetime.min] (0001-01-01T00:00:00) and
    [datetime.max] (9999-12-31T23:59:59.999999), in microseconds since the
    epoch. *)
Definition datetime_min : Z := -62135596800000000.
Definition datetime_max : Z := 253402300799999999.

(** The dates of a call for [days] days are all datetimes: every clock
    reading is one, and so is every reading less its [timedelta]. Outside
    this range [datetime.utcnow() - timedelta(days=days-i)] raises
    [OverflowError] and the call returns nothing. *)
Definition dates_in_range (days : Z) (env : GenEnv) : Prop :=
  forall i, (i < Z.to_nat days)%nat ->
    (datetime_min <= utcnow (day env i) - timedelta_days (days - Z.of_nat i))%Z /\
    (utcnow (day env i) <= datetime_max)%Z.

(** ** Concrete inputs *)

(** A simulator whose twenty symbols all stand at 100. *)
Definition sim100 : FinancialDataSimulator := new_simulator (fun _ => 1 # 9).

Definition app0 : App := {| data_simulator := sim100; cache := initial_cache |}.

(** An ordinary day, read at 2023-11-14T22:13:20Z. *)
Definition calm_day : DayDraws :=
  {| utcnow := 1700000000000000%Z;
     shock_z := 1 # 2; vol_u := 1 # 2; high_z := 1; low_z := -1;
     open_u := 1 # 4; base_volume := 2000000; volume_z := 1 |}.

Definition calm_env : GenEnv := {| init_u := 1 # 2; day := fun _ => calm_day |}.

(** A day on which the draw for [low] lands far in the tail: with
    [daily_volatility = 0.025], [|normal(0, daily_volatility)| = 2]. *)
Definition wild_day : DayDraws :=
  {| utcnow := 1700000000000000%Z;
     shock_z := 1 # 2; vol_u := 1 # 2; high_z := 1; low_z := -80;
     open_u := 1 # 4; base_volume := 2000000; volume_z := 1 |}.

Definition wild_env : GenEnv := {| init_u := 1 # 2; day := fun _ => wild_day |}.

(** A timer that reads [t] at all three places. *)
Definition at_time (t : Q) : Timer :=
  {| t_contains := t; t_getitem := t; t_setitem := t |}.

(** A quote with the fields the summary looks at. *)
Definition quote (sym : string) (change_percent : Q) (volume : Z)
    (market_cap : option Q) : MarketData :=
  {| symbol := sym; current_price := 100; change := 0;
     change_percent := change_percent; volume := volume;
     market_cap := market_cap; pe_ratio := None; timestamp := 0%Z |}.

Definition two_quotes : list MarketData :=
  [quote "A" 1 10 (Some 5%Q); quote "B" 2 20 None].

(** Draws of a quote: the price stays where it is stored, the synthetic
    previous close lands one percent above it. *)
Definition steady_quote : QuoteDraws :=
  {| price_u := 1 # 2; prev_u := 3 # 4; quote_volume := 1000000;
     cap_shares := 2000000; pe_u := 1 # 2; quote_utcnow := 1700000000000000%Z |}.

(** Other draws of a quote: the price falls to the bottom of its band. *)
Definition falling_quote : QuoteDraws :=
  {| price_u := 0; prev_u := 1 # 4; quote_volume := 600000;
     cap_shares := 3000000; pe_u := 1 # 4; quote_utcnow := 1700000200000000%Z |}.

(** A day on which the price falls through the floor: the shock drives
    [current_price + price_change] below zero and the clamp sets the close
    to 0.01. *)
Definition crash_day : DayDraws :=
  {| utcnow := 1700000000000000%Z;
     shock_z := -100; vol_u := 1 # 2; high_z := 1; low_z := -1;
     open_u := 1 # 4; base_volume := 2000000; volume_z := 1 |}.

Definition crash_env : GenEnv := {| init_u := 1 # 2; day := fun _ => crash_day |}.

(** A day on which the price does not move: the shock of -0.01 cancels the
    drift, [drift + volatility * random_shock = 0.0002 - 0.0002 = 0], so
    [price_change] is zero and the close repeats. *)
Definition flat_day : DayDraws :=
  {| utcnow := 1700000000000000%Z;
     shock_z := -1 # 100; vol_u := 1 # 2; high_z := 1; low_z := -1;
     open_u := 1 # 4; base_volume := 2000000; volume_z := 1 |}.

Definition flat_env : GenEnv := {| init_u := 1 # 2; day := fun _ => flat_day |}.

(** A run of requests: a market summary, a price history for a symbol the
    simulator does not track, and a correlation matrix. *)
Definition sample_requests : list Request :=
  [MarketSummaryRequest (at_time 0) (fun _ => steady_quote) 1700000000000000%Z;
   PriceHistoryRequest "zzz" 2 (at_time 10) calm_env;
   CorrelationRequest (at_time 20) (fun _ => crash_env)].

(** A correlation entry that is [nan] or a number of [[-1, 1]]: [c / sqrt d]
    with [d > 0] and [c * c <= d]. *)
Definition nan_or_within_one (x : npfloat) : Prop :=
  match x with
  | NaN => True
  | Inf _ => False
  | Surd c d => (0 < d)%Q /\ (c * c <= d)%Q
  end.

(** A simulator that tracks a symbol it has no price for. *)
Definition broken_sim : FinancialDataSimulator :=
  {| symbols := ["JPM"; "GS"; "MS"];
     base_prices := <["JPM" := 100%Q]> (<["MS" := 80%Q]> ∅) |}.

(** * Properties *)

(** ** The embedding at work *)

Example round2_ties :
  map round2 [2.675; 2.665; -0.005; -0.015; 0.125]%Q
  = [2.68; 2.66; 0.00; -0.02; 0.12]%Q.
Proof. reflexivity. Qed.

Example py_int_truncates : map py_int [2.675; -2.665; -0.005]%Q = [2; -2; 0]%Z.
Proof. reflexivity. Qed.

Example one_calm_day :
  fst (generate_realistic_price_data sim100 "JPM" 1 calm_env)
  = [{| sp_symbol := "JPM"; sp_timestamp := 1699913600000000%Z;
        open_ := 100.01; high := 103.55; low := 98.49; close := 101.02;
        sp_volume := 3000000; vwap := Some 101.02%Q |}].
Proof. vm_compute. reflexivity. Qed.

Example one_wild_day :
  map low (fst (generate_realistic_price_data sim100 "JPM" 1 wild_env))
  = [(-101.02)%Q].
Proof. vm_compute. reflexivity. Qed.

Example steady_snapshot_head :
  match fst (generate_market_data sim100 (fun _ => steady_quote)) with
  | Ok (md :: _) =>
      (symbol md, current_price md, change md, change_percent md)
      = ("JPM", 100.00, -1.00, -0.99)%Q
  | _ => False
  end.
Proof. vm_compute. reflexivity. Qed.

Example two_quotes_losers :
  map symbol (top_losers (summarize two_quotes 0%Z)) = ["B"; "A"].
Proof. reflexivity. Qed.

Example history_key_and_symbol :
  map TTLCache.l_key
    (TTLCache.links (cache (snd (get_stock_price_history "jpm" 2 (at_time 0)
                                   calm_env app0))))
  = ["price_history_jpm_2"].
Proof. vm_compute. reflexivity. Qed.

(** ** Rounding and truncation *)

Section Rounding.
Local Open Scope Q_scope.

Lemma round_half_even_bounds (x : Q) :
  (Qfloor x <= round_half_even x <= Qfloor x + 1)%Z.
Proof.
  unfold round_half_even.
  destruct (Qcompare _ _); try destruct (Z.even _); lia.
Qed.

Lemma round_half_even_mono (x y : Q) :
  x <= y -> (round_half_even x <= round_half_even y)%Z.
Proof.
  intros Hxy.
  pose proof (Qfloor_resp_le _ _ Hxy) as Hf.
  pose proof (round_half_even_bounds x) as Hx.
  pose proof (round_half_even_bounds y) as Hy.
  destruct (Z.eq_dec (Qfloor x) (Qfloor y)) as [E | NE]; [| lia].
  clear Hx Hy Hf. unfold round_half_even. rewrite <- E.
  destruct (Qcompare_spec (x - inject_Z (Qfloor x)) (1 # 2)) as [H1 | H1 | H1];
    destruct (Qcompare_spec (y - inject_Z (Qfloor x)) (1 # 2)) as [H2 | H2 | H2];
    try destruct (Z.even (Qfloor x)); try lia; exfalso; lra.
Qed.

Lemma round2_mono (x y : Q) : x <= y -> round2 x <= round2 y.
Proof.
  intros Hxy. unfold round2.
  assert (H : (round_half_even (x * 100) <= round_half_even (y * 100))%Z)
    by (apply round_half_even_mono; lra).
  rewrite Zle_Qle in H.
  apply Qmult_le_compat_r; [exact H | discriminate].
Qed.

Lemma Qnum_nonneg (q : Q) : 0 <= q -> (0 <= Qnum q)%Z.
Proof. unfold Qle; simpl. lia. Qed.

Lemma py_int_nonneg (q : Q) : 0 <= q -> (0 <= py_int q)%Z.
Proof.
  intros H. unfold py_int.
  apply Z.quot_pos; [now apply Qnum_nonneg | lia].
Qed.

Lemma max3_ge (a b c : Q) : a <= max3 a b c /\ b <= max3 a b c /\ c <= max3 a b c.
Proof.
  unfold max3. repeat split.
  - eapply Qle_trans; [apply Q.le_max_l | apply Q.le_max_l].
  - eapply Qle_trans; [apply Q.le_max_r | apply Q.le_max_l].
  - apply Q.le_max_r.
Qed.

Lemma min3_le (a b c : Q) : min3 a b c <= a /\ min3 a b c <= b /\ min3 a b c <= c.
Proof.
  unfold min3. repeat split.
  - eapply Qle_trans; [apply Q.le_min_l | apply Q.le_min_l].
  - eapply Qle_trans; [apply Q.le_min_l | apply Q.le_min_r].
  - apply Q.le_min_r.
Qed.
End Rounding.

(** ** The price path *)

Section PricePath.
Local Open Scope Q_scope.

Lemma day_step_ohlc sym days d i cp :
  let p := fst (day_step sym days d i cp) in
  low p <= open_ p /\ open_ p <= high p /\ low p <= close p /\ close p <= high p.
Proof.
  cbn -[Qmax Qmin round2 min3 max3 uniform normal Qabs].
  set (c := Qmax _ _). set (o := c * uniform _ _ _).
  set (h := c * (1 + _)). set (l := c * (1 - _)).
  destruct (max3_ge h o c) as (_ & Ho & Hc).
  destruct (min3_le l o c) as (_ & Ho' & Hc').
  repeat split; apply round2_mono; assumption.
Qed.

Lemma day_step_volume sym days d i cp :
  (0 <= base_volume d)%Z -> (0 <= sp_volume (fst (day_step sym days d i cp)))%Z.
Proof.
  intros Hb. cbn -[Qabs normal]. apply py_int_nonneg.
  apply Qmult_le_0_compat.
  - rewrite Zle_Qle in Hb. exact Hb.
  - pose proof (Qabs_nonneg (normal 0 0.5 (volume_z d))). lra.
Qed.

Lemma price_loop_In sym days env idx cp p :
  In p (price_loop sym days env idx cp) ->
  exists i cp', In i idx /\ p = fst (day_step sym days (day env i) i cp').
Proof.
  revert cp. induction idx as [| i idx IH]; intros cp; cbn [price_loop];
    [intros [] |].
  destruct (day_step sym days (day env i) i cp) as [q cp'] eqn:E.
  intros [<- | Hin].
  - exists i, cp. rewrite E. split; [now left | reflexivity].
  - destruct (IH _ Hin) as (j & c & Hj & ->).
    exists j, c. split; [now right | reflexivity].
Qed.

Lemma range_In days i : In i (range days) <-> (i < Z.to_nat days)%nat.
Proof. unfold range. rewrite in_seq. lia. Qed.

Lemma generate_price_data_fst self sym days env :
  exists base_price,
    fst (generate_realistic_price_data self sym days env) =
    price_loop sym days env (range days) base_price.
Proof.
  unfold generate_realistic_price_data.
  destruct (base_prices self !! sym); eexists; reflexivity.
Qed.
End PricePath.

(** C1. Every StockPrice returned by generate_realistic_price_data, for any
    day count and any draws, satisfies low <= open <= high and
    low <= close <= high on its returned (rounded) fields, and volume >= 0
    as soon as the integer drawn by random.randint(1000000, 10000000) is
    within its bounds. *)
Theorem generate_price_data_ohlc (self : FinancialDataSimulator) (sym : string)
    (days : Z) (env : GenEnv) (p : StockPrice) :
  (forall i, (i < Z.to_nat days)%nat ->
     (1000000 <= base_volume (day env i) <= 10000000)%Z) ->
  In p (fst (generate_realistic_price_data self sym days env)) ->
  (low p <= open_ p)%Q /\ (open_ p <= high p)%Q /\
  (low p <= close p)%Q /\ (close p <= high p)%Q /\ (0 <= sp_volume p)%Z.
Proof.
  intros Hvalid Hin.
  destruct (generate_price_data_fst self sym days env) as [bp E].
  rewrite E in Hin. apply price_loop_In in Hin as (i & cp & Hi & ->).
  apply range_In in Hi. specialize (Hvalid i Hi).
  pose proof (day_step_ohlc sym days (day env i) i cp) as (H1 & H2 & H3 & H4).
  repeat split; try assumption. apply day_step_volume. lia.
Qed.

Lemma generate_price_data_ohlc_witness :
  let p := hd_error (fst (generate_realistic_price_data sim100 "JPM" 2 calm_env)) in
  exists p0, p = Some p0 /\
    (low p0 <= open_ p0)%Q /\ (open_ p0 <= high p0)%Q /\
    (low p0 <= close p0)%Q /\ (close p0 <= high p0)%Q /\ (0 <= sp_volume p0)%Z.
Proof.
  eexists. split; [vm_compute; reflexivity |].
  apply (generate_price_data_ohlc sim100 "JPM" 2 calm_env).
  - intros i _. simpl. lia.
  - vm_compute. left. reflexivity.
Defined.

(** ** Timestamps of a history *)

Section Timestamps.
Local Open Scope Z_scope.

Lemma price_loop_length sym days env idx cp :
  length (price_loop sym days env idx cp) = length idx.
Proof.
  revert cp. induction idx as [| i idx IH]; intros cp; cbn [price_loop length];
    [reflexivity |].
  destruct (day_step sym days (day env i) i cp) as [q cp'].
  cbn [length]. now rewrite IH.
Qed.

Lemma price_loop_timestamp sym days env n : forall a cp k p,
  nth_error (price_loop sym days env (seq a n) cp) k = Some p ->
  sp_timestamp p =
    utcnow (day env (a + k)%nat) - timedelta_days (days - Z.of_nat (a + k)).
Proof.
  induction n as [| n IH]; intros a cp k p; cbn [seq price_loop].
  - destruct k; discriminate.
  - destruct (day_step sym days (day env a) a cp) as [q cp'] eqn:E.
    destruct k as [| k]; cbn [nth_error].
    + intros [= <-]. replace q with (fst (day_step sym days (day env a) a cp))
        by now rewrite E.
      rewrite Nat.add_0_r. reflexivity.
    + intros H. apply IH in H. rewrite H.
      replace (S a + k)%nat with (a + S k)%nat by lia. reflexivity.
Qed.

Lemma generate_price_data_length self sym days env :
  length (fst (generate_realistic_price_data self sym days env)) = Z.to_nat days.
Proof.
  destruct (generate_price_data_fst self sym days env) as [bp ->].
  rewrite price_loop_length. unfold range. apply length_seq.
Qed.

Lemma generate_price_data_timestamp self sym days env i p :
  nth_error (fst (generate_realistic_price_data self sym days env)) i = Some p ->
  sp_timestamp p = utcnow (day env i) - timedelta_days (days - Z.of_nat i).
Proof.
  destruct (generate_price_data_fst self sym days env) as [bp ->].
  intros H. apply price_loop_timestamp in H. exact H.
Qed.
End Timestamps.

(** A call for at most 365 days, which is all the endpoint lets through,
    with every clock reading between the epoch and [datetime.max], stays
    within the datetimes. *)
Lemma dates_in_range_endpoint (days : Z) (env : GenEnv) :
  (days <= 365)%Z ->
  (forall i, 0 <= utcnow (day env i) <= datetime_max)%Z ->
  dates_in_range days env.
Proof.
  intros Hdays Hclock i Hi. specialize (Hclock i).
  unfold timedelta_days, microseconds_per_day, datetime_min, datetime_max in *.
  split; lia.
Qed.

(** With the clock of 14 November 2023 the dates leave the datetimes from
    738838 days on: the first subtraction of the loop raises
    [OverflowError]. 738837 days are still within them. *)
Lemma dates_out_of_range :
  ~ dates_in_range 738838 calm_env /\ dates_in_range 738837 calm_env.
Proof.
  split.
  - intros H. destruct (H 0%nat) as [H0 _]; [lia |].
    cbn [calm_env day calm_day utcnow] in H0.
    unfold timedelta_days, microseconds_per_day, datetime_min in H0. lia.
  - intros i Hi. cbn [calm_env day calm_day utcnow].
    unfold timedelta_days, microseconds_per_day, datetime_min, datetime_max.
    split; lia.
Qed.

(** C2, as the code has it. For every N whose dates are all datetimes (every
    N up to 365 is, which is all the endpoint lets through; otherwise the
    date subtraction raises OverflowError and nothing is returned)
    generate_realistic_price_data(symbol, N) returns exactly N points for
    N >= 1 (none for N <= 0), oldest first: the i-th point is stamped with
    the clock reading of its own iteration minus (N - i) days. Under a clock
    that does not run backwards the timestamps increase strictly,
    consecutive ones lie one day plus the time elapsed between the two
    iterations apart, and the last point is stamped exactly one day before
    the last clock reading, not at it. *)
Theorem generate_price_data_timestamps (self : FinancialDataSimulator)
    (sym : string) (days : Z) (env : GenEnv) :
  dates_in_range days env ->
  let prices := fst (generate_realistic_price_data self sym days env) in
  length prices = Z.to_nat days /\
  (forall i p, nth_error prices i = Some p ->
     sp_timestamp p =
       (utcnow (day env i) - (days - Z.of_nat i) * microseconds_per_day)%Z) /\
  (forall i p q, nth_error prices i = Some p -> nth_error prices (S i) = Some q ->
     (sp_timestamp q - sp_timestamp p =
        microseconds_per_day + (utcnow (day env (S i)) - utcnow (day env i)))%Z) /\
  (clock_monotone env ->
   forall i p q, nth_error prices i = Some p -> nth_error prices (S i) = Some q ->
     (sp_timestamp p < sp_timestamp q)%Z) /\
  (forall p, last_point prices = Some p ->
     sp_timestamp p = (last_now env days - microseconds_per_day)%Z).
Proof.
  intros _ prices. subst prices.
  pose proof (generate_price_data_length self sym days env) as Hlen.
  assert (Hgap : forall i p q,
    nth_error (fst (generate_realistic_price_data self sym days env)) i = Some p ->
    nth_error (fst (generate_realistic_price_data self sym days env)) (S i) = Some q ->
    (sp_timestamp q - sp_timestamp p =
       microseconds_per_day + (utcnow (day env (S i)) - utcnow (day env i)))%Z).
  { intros i p q Hp Hq.
    apply generate_price_data_timestamp in Hp, Hq. rewrite Hp, Hq.
    unfold timedelta_days, microseconds_per_day. lia. }
  split; [exact Hlen |]. split; [| split; [exact Hgap | split]].
  - intros i p Hp. now apply generate_price_data_timestamp in Hp.
  - intros Hmono i p q Hp Hq. specialize (Hgap i p q Hp Hq).
    specialize (Hmono i). unfold microseconds_per_day in Hgap. lia.
  - unfold last_point, last_now. rewrite Hlen. intros p Hp.
    assert (Hlt : (Z.to_nat days - 1 < Z.to_nat days)%nat).
    { rewrite <- Hlen at 2. apply nth_error_Some. congruence. }
    apply generate_price_data_timestamp in Hp. rewrite Hp.
    unfold timedelta_days.
    replace (days - Z.of_nat (Z.to_nat days - 1))%Z with 1%Z by lia.
    now rewrite Z.mul_1_l.
Qed.

Lemma clock_monotone_calm : clock_monotone calm_env.
Proof. intros i. simpl. lia. Defined.

Lemma dates_in_range_calm : dates_in_range 3 calm_env.
Proof.
  apply dates_in_range_endpoint; [lia |].
  intros i. cbn [calm_env day calm_day utcnow]. unfold datetime_max. lia.
Defined.

Lemma generate_price_data_timestamps_witness :
  dates_in_range 3 calm_env /\
  clock_monotone calm_env /\
  match fst (generate_realistic_price_data sim100 "JPM" 3 calm_env) with
  | p :: q :: _ => (sp_timestamp p < sp_timestamp q)%Z
  | _ => False
  end.
Proof.
  split; [exact dates_in_range_calm |].
  split; [exact clock_monotone_calm |].
  pose proof (generate_price_data_timestamps sim100 "JPM" 3 calm_env
                dates_in_range_calm)
    as (_ & _ & _ & H & _).
  specialize (H clock_monotone_calm 0%nat).
  vm_compute in H. vm_compute. exact (H _ _ eq_refl eq_refl).
Defined.

(** C2 as claimed fails: for one day, with the clock standing still, the
    only point is stamped a whole day before now, outside any tolerance
    short of the spacing itself. *)
Lemma history_does_not_end_now :
  ~ history_ends_now (microseconds_per_day - 1) 1 calm_env
      (fst (generate_realistic_price_data sim100 "JPM" 1 calm_env)).
Proof.
  intros (_ & _ & H).
  specialize (H _ eq_refl). vm_compute in H. apply H. reflexivity.
Qed.

(** ** The clamp *)

Section Clamp.
Local Open Scope Q_scope.

Lemma round2_cent : round2 0.01 == 0.01.
Proof. reflexivity. Qed.

Lemma round2_zero : round2 0 == 0.
Proof. reflexivity. Qed.

Lemma day_step_close sym days d i cp :
  0.01 <= close (fst (day_step sym days d i cp)).
Proof.
  cbn -[Qmax round2]. rewrite <- round2_cent at 1.
  apply round2_mono, Q.le_max_r.
Qed.

Lemma day_step_low_tail sym days d i cp :
  1 < Qabs (normal 0 (daily_volatility d) (low_z d)) ->
  low (fst (day_step sym days d i cp)) <= 0.
Proof.
  intros Htail. cbn -[Qmax Qmin round2 min3 max3 uniform normal Qabs].
  fold (daily_volatility d).
  set (a := Qabs _) in *. set (c := Qmax _ _).
  rewrite <- round2_zero. apply round2_mono.
  eapply Qle_trans; [apply (proj1 (min3_le _ _ _)) |].
  assert (Hc : 0.01 <= c) by apply Q.le_max_r.
  clearbody a c. nra.
Qed.
End Clamp.

(** C10. The floor of 0.01 guards the evolving close only: every returned
    close is at least 0.01, whereas a draw with |normal(0, daily_volatility)|
    above 1 drives the returned low to 0 or below, and for some admissible
    draws a returned StockPrice has low < 0. *)
Theorem clamp_guards_close_not_low :
  (forall self sym days env p,
     In p (fst (generate_realistic_price_data self sym days env)) ->
     (0.01 <= close p)%Q) /\
  (forall sym days d i cp,
     (1 < Qabs (normal 0 (daily_volatility d) (low_z d)))%Q ->
     (low (fst (day_step sym days d i cp)) <= 0)%Q) /\
  (exists p,
     valid_day wild_day /\
     In p (fst (generate_realistic_price_data sim100 "JPM" 1 wild_env)) /\
     (low p < 0)%Q /\ (0.01 <= close p)%Q).
Proof.
  split; [| split].
  - intros self sym days env p Hin.
    destruct (generate_price_data_fst self sym days env) as [bp E].
    rewrite E in Hin. apply price_loop_In in Hin as (i & cp & _ & ->).
    apply day_step_close.
  - exact day_step_low_tail.
  - eexists. split; [| split; [vm_compute; left; reflexivity | split]].
    + unfold valid_day, unit_draw; simpl. repeat split; (lra || lia).
    + reflexivity.
    + vm_compute. discriminate.
Qed.

(** ** Validation of the day count *)

(** C3. The price-history operation rejects every day count outside
    [1, 365], 0 and 366 among them: the request ends in the validation
    error of the Query bounds (the InvalidParameter of the specification),
    whatever the symbol, the cache and the simulator hold, and neither of
    them is touched; no sequence is returned and nothing is clamped. *)
Theorem price_history_rejects_out_of_range (symbol : string) (days : Z)
    (tm : Timer) (env : GenEnv) (app : App) :
  (days < 1 \/ 365 < days)%Z ->
  get_stock_price_history symbol days tm env app =
    (RequestValidationError "days", app).
Proof.
  intros Hout. unfold get_stock_price_history.
  destruct (1 <=? days)%Z eqn:E1; destruct (days <=? 365)%Z eqn:E2;
    try reflexivity.
  apply Z.leb_le in E1, E2. lia.
Qed.

Lemma price_history_rejects_out_of_range_witness :
  get_stock_price_history "JPM" 0 (at_time 0) calm_env app0 =
    (RequestValidationError "days", app0) /\
  get_stock_price_history "JPM" 366 (at_time 0) calm_env app0 =
    (RequestValidationError "days", app0).
Proof.
  split.
  - apply (price_history_rejects_out_of_range "JPM" 0). left. lia.
  - apply (price_history_rejects_out_of_range "JPM" 366). right. lia.
Defined.

(** The generator itself checks nothing: the bounds live in the endpoint. *)
Example generator_takes_any_count :
  fst (generate_realistic_price_data sim100 "JPM" 0 calm_env) = [] /\
  length (fst (generate_realistic_price_data sim100 "JPM" 366 calm_env)) = 366%nat.
Proof. split; [reflexivity | apply generate_price_data_length]. Qed.

(** ** The reference prices under the price path generator *)

Section StoreFrame.

Lemma generate_known self sym days env p :
  base_prices self !! sym = Some p ->
  snd (generate_realistic_price_data self sym days env) = self.
Proof. intros H. unfold generate_realistic_price_data. now rewrite H. Qed.

Lemma generate_unknown self sym days env :
  base_prices self !! sym = None ->
  snd (generate_realistic_price_data self sym days env) =
    {| symbols := symbols self;
       base_prices := <[sym := uniform 50 500 (init_u env)]> (base_prices self) |}.
Proof. intros H. unfold generate_realistic_price_data. now rewrite H. Qed.

Lemma generate_keeps_registered self sym days env s v :
  base_prices self !! s = Some v ->
  base_prices (snd (generate_realistic_price_data self sym days env)) !! s = Some v.
Proof.
  intros Hs. destruct (base_prices self !! sym) as [p |] eqn:E.
  - now rewrite (generate_known _ _ _ _ _ E).
  - rewrite (generate_unknown _ _ _ _ E). cbn [base_prices].
    rewrite lookup_insert_ne; [exact Hs | congruence].
Qed.

Lemma history_calls_keep_registered calls : forall self s v,
  base_prices self !! s = Some v ->
  base_prices (history_calls calls self) !! s = Some v.
Proof.
  induction calls as [| c calls IH]; intros self s v Hs; [exact Hs |].
  unfold history_calls. cbn [fold_left]. apply IH.
  now apply generate_keeps_registered.
Qed.

Lemma uniform_range (lo hi u : Q) :
  (lo <= hi)%Q -> unit_draw u -> (lo <= uniform lo hi u)%Q /\ (uniform lo hi u <= hi)%Q.
Proof. unfold unit_draw, uniform. intros Hle [H0 H1]. split; nra. Qed.

End StoreFrame.

(** C9. generate_realistic_price_data leaves the simulator exactly as it
    was when the symbol is registered. For a symbol that is not, it adds
    one entry, for that symbol, holding the draw of random.uniform(50, 500)
    (a value within [50, 500]), and changes nothing else; whatever
    price-history calls follow, the entry keeps that value. *)
Theorem generate_price_data_frame (self : FinancialDataSimulator) (sym : string)
    (days : Z) (env : GenEnv) :
  let self' := snd (generate_realistic_price_data self sym days env) in
  let drawn := uniform 50 500 (init_u env) in
  (is_Some (base_prices self !! sym) -> self' = self) /\
  (base_prices self !! sym = None ->
     base_prices self' = <[sym := drawn]> (base_prices self) /\
     symbols self' = symbols self /\
     (forall s, s <> sym -> base_prices self' !! s = base_prices self !! s) /\
     (unit_draw (init_u env) -> (50 <= drawn)%Q /\ (drawn <= 500)%Q) /\
     forall calls, base_prices (history_calls calls self') !! sym = Some drawn) /\
  (forall calls s v, base_prices self' !! s = Some v ->
     base_prices (history_calls calls self') !! s = Some v).
Proof.
  cbn zeta. split; [| split].
  - intros [p Hp]. now apply generate_known with p.
  - intros Hnone. rewrite (generate_unknown _ _ _ _ Hnone). cbn [base_prices symbols].
    repeat split.
    + intros s Hs. now apply lookup_insert_ne.
    + now apply uniform_range.
    + now apply uniform_range.
    + intros calls. apply history_calls_keep_registered.
      cbn [base_prices]. apply lookup_insert_eq.
  - intros calls s v. apply history_calls_keep_registered.
Qed.

Lemma generate_price_data_frame_witness :
  snd (generate_realistic_price_data sim100 "JPM" 30 calm_env) = sim100 /\
  base_prices
    (history_calls [("JPM", 30%Z, calm_env); ("ZZZ", 7%Z, wild_env)]
       (snd (generate_realistic_price_data sim100 "ZZZ" 30 calm_env))) !! "ZZZ"
  = Some (uniform 50 500 (1 # 2)).
Proof.
  split.
  - apply (proj1 (generate_price_data_frame sim100 "JPM" 30 calm_env)).
    vm_compute. eexists. reflexivity.
  - apply (proj1 (proj2 (generate_price_data_frame sim100 "ZZZ" 30 calm_env))).
    vm_compute. reflexivity.
Defined.

(** ** Ranking *)

Section Ranking.
Context {A K : Type} (le : K -> K -> Prop) (leb : K -> K -> bool) (key : A -> K).
Hypothesis leb_le : forall a b, leb a b = true <-> le a b.
Hypothesis le_total : forall a b, le a b \/ le b a.
Hypothesis le_trans : forall a b c, le a b -> le b c -> le a c.

Lemma insert_desc_perm x l : Permutation (insert_desc leb key x l) (x :: l).
Proof.
  induction l as [| y l IH]; cbn [insert_desc]; [reflexivity |].
  destruct (leb (key y) (key x)); [reflexivity |].
  rewrite IH. apply perm_swap.
Qed.

Lemma sorted_reverse_perm l : Permutation (sorted_reverse leb key l) l.
Proof.
  induction l as [| x l IH]; cbn [sorted_reverse]; [reflexivity |].
  rewrite insert_desc_perm. now constructor.
Qed.

Lemma sorted_reverse_length l : length (sorted_reverse leb key l) = length l.
Proof. apply Permutation_length, sorted_reverse_perm. Qed.

Lemma insert_desc_sorted x l :
  descending le key l -> descending le key (insert_desc leb key x l).
Proof.
  unfold descending. induction l as [| y l IH]; cbn [insert_desc]; intros Hs.
  - repeat constructor.
  - apply StronglySorted_inv in Hs as [Hl Hy].
    destruct (leb (key y) (key x)) eqn:E.
    + apply leb_le in E. constructor; [now constructor |].
      constructor; [exact E |].
      eapply Forall_impl; [exact Hy |]. intros z Hz. cbv beta in *. eauto.
    + assert (Hxy : le (key x) (key y)).
      { destruct (le_total (key x) (key y)) as [H | H]; [exact H |].
        apply leb_le in H. congruence. }
      constructor; [now apply IH |].
      eapply Permutation_Forall; [symmetry; apply insert_desc_perm |].
      now constructor.
Qed.

Lemma sorted_reverse_sorted l : descending le key (sorted_reverse leb key l).
Proof.
  induction l as [| x l IH]; cbn [sorted_reverse]; [constructor |].
  now apply insert_desc_sorted.
Qed.

Lemma descending_app_inv l1 l2 :
  descending le key (l1 ++ l2) ->
  descending le key l1 /\ descending le key l2 /\
  forall a b, In a l1 -> In b l2 -> le (key b) (key a).
Proof.
  unfold descending. induction l1 as [| x l1 IH]; cbn [app]; intros Hs.
  - split; [constructor | split; [exact Hs | intros a b []]].
  - apply StronglySorted_inv in Hs as [Hl Hx].
    destruct (IH Hl) as (H1 & H2 & H3).
    apply Forall_app in Hx as [Hx1 Hx2].
    split; [now constructor | split; [exact H2 |]].
    intros a b [<- | Ha] Hb; [| exact (H3 a b Ha Hb)].
    exact (proj1 (List.Forall_forall _ _) Hx2 b Hb).
Qed.

Lemma slice_to_descending n l :
  descending le key l -> descending le key (slice_to n l).
Proof.
  intros Hs. rewrite <- (firstn_skipn n l) in Hs.
  now apply descending_app_inv in Hs.
Qed.

Lemma slice_last_descending n l :
  descending le key l -> descending le key (slice_last n l).
Proof.
  intros Hs. unfold slice_last.
  rewrite <- (firstn_skipn (length l - n) l) in Hs at 1.
  now apply descending_app_inv in Hs.
Qed.

Lemma slice_last_lowest n l :
  descending le key l ->
  forall a b, In a (firstn (length l - n) l) -> In b (slice_last n l) ->
              le (key b) (key a).
Proof.
  intros Hs. unfold slice_last.
  rewrite <- (firstn_skipn (length l - n) l) in Hs at 1.
  now apply descending_app_inv in Hs.
Qed.
End Ranking.

Lemma slice_to_length {A} n (l : list A) : length (slice_to n l) = Nat.min n (length l).
Proof. apply length_firstn. Qed.

Lemma slice_last_length {A} n (l : list A) :
  length (slice_last n l) = Nat.min n (length l).
Proof. unfold slice_last. rewrite length_skipn. lia. Qed.

Lemma Qle_total (a b : Q) : (a <= b)%Q \/ (b <= a)%Q.
Proof. destruct (Qlt_le_dec a b) as [H | H]; [left; now apply Qlt_le_weak | now right]. Qed.

Lemma Zle_total (a b : Z) : (a <= b)%Z \/ (b <= a)%Z.
Proof. lia. Qed.

Lemma sorted_by_change_descending (market_data : list MarketData) :
  descending Qle change_percent (sorted_reverse Qle_bool change_percent market_data).
Proof.
  apply sorted_reverse_sorted.
  - apply Qle_bool_iff.
  - apply Qle_total.
  - intros a b c. apply Qle_trans.
Qed.

Lemma sorted_by_volume_descending (market_data : list MarketData) :
  descending Z.le volume (sorted_reverse Z.leb volume market_data).
Proof.
  apply sorted_reverse_sorted.
  - apply Z.leb_le.
  - apply Zle_total.
  - intros a b c. apply Z.le_trans.
Qed.

(** C4, as the code has it. For every batch of n >= 0 quotes, top_gainers
    and top_losers are both in descending order of change_percent and
    most_active is in descending order of volume; top_losers is the tail of
    the descending sort, so it holds the min(5, n) lowest quotes (every
    quote left out of it has a change_percent at least as high), listed
    from the highest of them down to the lowest; each of the three lists
    has length min(5, n). *)
Theorem summary_ranking (market_data : list MarketData) (now : datetime) :
  let s := summarize market_data now in
  let n := length market_data in
  descending Qle change_percent (top_gainers s) /\
  descending Qle change_percent (top_losers s) /\
  (exists rest,
     Permutation market_data (rest ++ top_losers s) /\
     forall a b, In a rest -> In b (top_losers s) ->
                 (change_percent b <= change_percent a)%Q) /\
  descending Z.le volume (most_active s) /\
  length (top_gainers s) = Nat.min 5 n /\
  length (top_losers s) = Nat.min 5 n /\
  length (most_active s) = Nat.min 5 n.
Proof.
  cbn zeta. unfold summarize.
  cbn [top_gainers top_losers most_active].
  set (by_change := sorted_reverse Qle_bool change_percent market_data).
  set (by_volume := sorted_reverse Z.leb volume market_data).
  pose proof (sorted_by_change_descending market_data) as Hc. fold by_change in Hc.
  pose proof (sorted_by_volume_descending market_data) as Hv. fold by_volume in Hv.
  repeat apply conj.
  - now apply slice_to_descending.
  - now apply slice_last_descending.
  - exists (firstn (length by_change - 5) by_change). split.
    + unfold slice_last. rewrite firstn_skipn.
      symmetry. apply sorted_reverse_perm.
    + now apply slice_last_lowest.
  - now apply slice_to_descending.
  - rewrite slice_to_length. unfold by_change. now rewrite sorted_reverse_length.
  - rewrite slice_last_length. unfold by_change. now rewrite sorted_reverse_length.
  - rewrite slice_to_length. unfold by_volume. now rewrite sorted_reverse_length.
Qed.

(** C4 as claimed fails: with two quotes at +1% and +2%, top_losers lists
    the +2% quote before the +1% one, which is not ascending. *)
Lemma top_losers_not_ascending :
  ~ ascending Qle change_percent (top_losers (summarize two_quotes 0%Z)).
Proof.
  intros H. vm_compute in H.
  apply StronglySorted_inv in H as [_ H].
  apply Forall_inv in H. vm_compute in H. apply H. reflexivity.
Qed.

(** ** Totals *)

Lemma sum_market_cap_fold (market_data : list MarketData) : forall acc acc',
  (acc == acc')%Q ->
  (fold_left (fun acc md =>
                match market_cap md with
                | Some c => if truthy (market_cap md) then (acc + c)%Q else acc
                | None => acc
                end) market_data acc
   == fold_left Qplus (present_caps market_data) acc')%Q.
Proof.
  unfold present_caps.
  induction market_data as [| md l IH]; intros acc acc' Hacc;
    cbn [fold_left omap list_omap];
    [exact Hacc |].
  destruct (market_cap md) as [c |] eqn:E; cbn [fold_left]; [| now apply IH].
  cbn [truthy]. destruct (Qeq_bool c 0) eqn:Ec; cbn [negb]; apply IH.
  - apply Qeq_bool_iff in Ec. rewrite Ec, Hacc. ring.
  - now rewrite Hacc.
Qed.

(** C7. The summary's total_market_cap is the sum of the market caps of
    exactly the quotes that carry one: a quote without a market cap adds
    nothing, a quote with one adds its value whatever that value is, a cap
    of 0 counting as present. *)
Theorem summary_total_market_cap (market_data : list MarketData) (now : datetime) :
  (total_market_cap (summarize market_data now) == Qsum (present_caps market_data))%Q.
Proof.
  unfold summarize, sum_market_cap, Qsum. cbn [total_market_cap].
  apply sum_market_cap_fold. reflexivity.
Qed.

(** ** The snapshot *)

Section Snapshot.

Lemma market_loop_frame syms : forall i env self r self' s,
  market_loop syms i env self = (r, self') ->
  ~ In s syms ->
  base_prices self' !! s = base_prices self !! s.
Proof.
  induction syms as [| sym rest IH]; intros i env self r self' s;
    cbn [market_loop].
  - now intros [= _ <-].
  - destruct (base_prices self !! sym) as [stored |] eqn:Es;
      [| now intros [= _ <-]].
    destruct (Qeq_bool _ 0); [now intros [= _ <-] |].
    destruct (market_loop rest (S i) env _) as [r1 self1] eqn:Eloop.
    intros [= _ <-] Hnotin.
    rewrite (IH _ _ _ _ _ s Eloop) by (intros Hin; apply Hnotin; now right).
    cbn [base_prices]. apply lookup_insert_ne.
    intros ->. apply Hnotin. now left.
Qed.

Lemma market_loop_quotes syms : forall i env self market_data self',
  NoDup syms ->
  market_loop syms i env self = (Ok market_data, self') ->
  forall k md, nth_error market_data k = Some md ->
  exists stored,
    nth_error syms k = Some (symbol md) /\
    base_prices self !! symbol md = Some stored /\
    let cp := quote_current_price stored (env (i + k)%nat) in
    let pc := quote_prev_close stored (env (i + k)%nat) in
    ~ (pc == 0)%Q /\
    current_price md = round2 cp /\
    change md = round2 (cp - pc) /\
    change_percent md = round2 ((cp - pc) / pc * 100) /\
    base_prices self' !! symbol md = Some cp.
Proof.
  induction syms as [| sym rest IH]; intros i env self market_data self' Hnd;
    cbn [market_loop].
  - intros [= <- <-] [| k] md; discriminate.
  - destruct (base_prices self !! sym) as [stored |] eqn:Es; [| discriminate].
    destruct (Qeq_bool (quote_prev_close stored (env i)) 0) eqn:Ez; [discriminate |].
    destruct (market_loop rest (S i) env _) as [r1 self1] eqn:Eloop.
    destruct r1 as [mds |]; [| discriminate].
    intros [= <- <-]. inversion Hnd as [| ? ? Hnotin Hnd']; subst.
    rewrite list_elem_of_In in Hnotin.
    intros [| k] md; cbn [nth_error].
    + intros [= <-]. exists stored. cbn [symbol current_price change change_percent].
      rewrite Nat.add_0_r. repeat split; try assumption.
      * intros Hz. apply Qeq_bool_iff in Hz. congruence.
      * rewrite (market_loop_frame _ _ _ _ _ _ sym Eloop Hnotin).
        cbn [base_prices]. apply lookup_insert_eq.
    + intros Hk.
      destruct (IH _ _ _ _ _ Hnd' Eloop k md Hk) as (st & Hsym & Hst & Hrest).
      exists st. replace (i + S k)%nat with (S i + k)%nat by lia.
      split; [exact Hsym |]. split; [| exact Hrest].
      cbn [base_prices] in Hst. rewrite lookup_insert_ne in Hst; [exact Hst |].
      intros ->. apply Hnotin. eapply nth_error_In. exact Hsym.
Qed.

Lemma quote_prices_positive stored d :
  (0 < stored)%Q -> valid_quote d ->
  (0 < quote_current_price stored d)%Q /\ (0 < quote_prev_close stored d)%Q.
Proof.
  unfold valid_quote, unit_draw, quote_prev_close, quote_current_price, uniform.
  intros Hs ((H1 & H2) & (H3 & H4)).
  assert (Hcp : (0 < stored * (0.95 + (1.05 - 0.95) * price_u d))%Q) by nra.
  split; [exact Hcp |].
  generalize dependent (stored * (0.95 + (1.05 - 0.95) * price_u d))%Q.
  intros cp Hcp. nra.
Qed.

(** With every tracked symbol on file at a positive price and unit draws
    in range, the snapshot raises nothing and yields one quote a symbol. *)
Lemma market_loop_succeeds syms : forall i env self,
  (forall s, In s syms -> exists p, base_prices self !! s = Some p /\ (0 < p)%Q) ->
  (forall k, valid_quote (env k)) ->
  exists market_data self',
    market_loop syms i env self = (Ok market_data, self') /\
    length market_data = length syms.
Proof.
  induction syms as [| sym rest IH]; intros i env self Hpos Hvalid;
    cbn [market_loop].
  - exists [], self. split; reflexivity.
  - destruct (Hpos sym (or_introl eq_refl)) as (stored & -> & Hs).
    destruct (quote_prices_positive stored (env i) Hs (Hvalid i)) as [Hcp Hpc].
    destruct (Qeq_bool (quote_prev_close stored (env i)) 0) eqn:Ez.
    { apply Qeq_bool_iff in Ez. rewrite Ez in Hpc. now apply Qlt_irrefl in Hpc. }
    edestruct (IH (S i) env) as (mds & self1 & -> & Hlen); [| exact Hvalid |].
    + intros s Hin. cbn [base_prices].
      destruct (decide (sym = s)) as [-> | Hne].
      * rewrite lookup_insert_eq. eauto.
      * rewrite lookup_insert_ne by exact Hne. apply Hpos. now right.
    + eexists. eexists. split; [reflexivity |]. cbn [length]. now rewrite Hlen.
Qed.

Lemma generate_market_data_succeeds self env :
  prices_positive self -> (forall k, valid_quote (env k)) ->
  exists market_data self',
    generate_market_data self env = (Ok market_data, self') /\
    length market_data = length (symbols self).
Proof. intros Hpos Hvalid. now apply market_loop_succeeds. Qed.

End Snapshot.

(** C6, as the code has it. For the k-th quote of a snapshot over distinct
    symbols, let stored be the price on file for its symbol before the call,
    cp = stored * uniform(0.95, 1.05) the new current price and
    pc = cp * uniform(0.98, 1.02) the synthetic previous close. Then
    current_price = round(cp, 2), change = round(cp - pc, 2) and
    change_percent = round((cp - pc) / pc * 100, 2): the change is taken
    against the synthetic previous close, not against the stored price, and
    the stored price of the symbol becomes cp. *)
Theorem snapshot_change_against_prev_close (self : FinancialDataSimulator)
    (env : nat -> QuoteDraws) (market_data : list MarketData)
    (self' : FinancialDataSimulator) (k : nat) (md : MarketData) :
  NoDup (symbols self) ->
  generate_market_data self env = (Ok market_data, self') ->
  nth_error market_data k = Some md ->
  exists stored,
    nth_error (symbols self) k = Some (symbol md) /\
    base_prices self !! symbol md = Some stored /\
    let cp := quote_current_price stored (env k) in
    let pc := quote_prev_close stored (env k) in
    ~ (pc == 0)%Q /\
    current_price md = round2 cp /\
    change md = round2 (cp - pc) /\
    change_percent md = round2 ((cp - pc) / pc * 100) /\
    base_prices self' !! symbol md = Some cp.
Proof.
  intros Hnd Hgen Hk. unfold generate_market_data in Hgen.
  exact (market_loop_quotes _ _ _ _ _ _ Hnd Hgen k md Hk).
Qed.

Lemma tracked_symbols_NoDup : NoDup tracked_symbols.
Proof. apply (bool_decide_unpack _). vm_compute. exact I. Defined.

Lemma snapshot_change_against_prev_close_witness :
  exists md stored,
    base_prices sim100 !! symbol md = Some stored /\
    change md = round2 (quote_current_price stored steady_quote
                        - quote_prev_close stored steady_quote).
Proof.
  edestruct (snapshot_change_against_prev_close sim100 (fun _ => steady_quote))
    as (stored & _ & Hs & _ & _ & Hc & _).
  - exact tracked_symbols_NoDup.
  - vm_compute. reflexivity.
  - instantiate (2 := 0%nat). reflexivity.
  - eexists. exists stored. split; [exact Hs | exact Hc].
Defined.

(** C6 as claimed fails: with JPM on file at 100, a price draw that keeps it
    at 100 and a previous close drawn at 101, the quote reports a change of
    -1 and -0.99 percent, where the price less the stored reference is 0. *)
Lemma change_is_not_against_stored :
  exists md rest stored,
    fst (generate_market_data sim100 (fun _ => steady_quote)) = Ok (md :: rest) /\
    base_prices sim100 !! symbol md = Some stored /\
    ~ (change md == current_price md - stored)%Q /\
    ~ (change_percent md == (current_price md - stored) / stored * 100)%Q.
Proof.
  eexists. eexists. eexists. split; [vm_compute; reflexivity |].
  split; [vm_compute; reflexivity |].
  split; vm_compute; discriminate.
Qed.

(** ** The cache *)

Section CacheLemmas.
Context {V : Type}.
Implicit Types (c : TTLCache.t V) (l : list (TTLCache.Link V)) (e : TTLCache.Link V).

Lemma unexpired_lt now e :
  TTLCache.unexpired now e = true <-> (now < TTLCache.l_expires e)%Q.
Proof.
  unfold TTLCache.unexpired. rewrite negb_true_iff.
  split.
  - intros H. apply Qnot_le_lt. intros Hle. apply Qle_bool_iff in Hle. congruence.
  - intros H. destruct (Qle_bool _ _) eqn:E; [| reflexivity].
    apply Qle_bool_iff in E. exfalso. now apply (Qlt_not_le _ _ H).
Qed.

Lemma find_unlink k l : find (TTLCache.is_key k) (TTLCache.unlink k l) = None.
Proof.
  unfold TTLCache.unlink. induction l as [| e l IH]; cbn [List.filter find]; [reflexivity |].
  destruct (TTLCache.is_key k e) eqn:E; cbn [negb]; [exact IH |].
  cbn [find]. now rewrite E.
Qed.

Lemma find_app_none {A} (f : A -> bool) (l1 l2 : list A) :
  find f l1 = None -> find f (l1 ++ l2) = find f l2.
Proof.
  induction l1 as [| x l1 IH]; cbn [app find]; [reflexivity |].
  destruct (f x); [discriminate | exact IH].
Qed.

Lemma find_unlink_snoc k l e :
  TTLCache.is_key k e = true ->
  find (TTLCache.is_key k) (TTLCache.unlink k l ++ [e]) = Some e.
Proof.
  intros He. rewrite find_app_none by apply find_unlink.
  cbn [find]. now rewrite He.
Qed.

Lemma getlink_touch c k e :
  TTLCache.getlink c k = Some e ->
  TTLCache.getlink (TTLCache.with_links c (TTLCache.touch k (TTLCache.links c))) k
  = Some e.
Proof.
  unfold TTLCache.getlink, TTLCache.touch. cbn [TTLCache.links TTLCache.with_links].
  intros H. rewrite H. apply find_unlink_snoc.
  now apply find_some in H.
Qed.

Lemma getlink_setitem c k v now c' :
  TTLCache.setitem c k v now = (Ok tt, c') ->
  TTLCache.getlink c' k =
    Some {| TTLCache.l_key := k; TTLCache.l_value := v;
            TTLCache.l_expires := (now + TTLCache.ttl c)%Q |} /\
  TTLCache.ttl c' = TTLCache.ttl c.
Proof.
  unfold TTLCache.setitem.
  destruct (1 >? TTLCache.maxsize c)%Z; [discriminate |].
  destruct (match find _ _ with Some _ => _ | None => _ end) as [l |];
    [| discriminate].
  intros [= <-]. split; [| reflexivity].
  unfold TTLCache.getlink. cbn [TTLCache.links TTLCache.with_links].
  apply find_unlink_snoc. unfold TTLCache.is_key. cbn. apply String.eqb_refl.
Qed.

Lemma setitem_succeeds c k v now :
  (1 <= TTLCache.maxsize c)%Z -> exists c', TTLCache.setitem c k v now = (Ok tt, c').
Proof.
  intros Hmax. unfold TTLCache.setitem.
  destruct (1 >? TTLCache.maxsize c)%Z eqn:E; [lia |].
  destruct (find _ _); [eexists; reflexivity |].
  generalize (TTLCache.expire now (TTLCache.links c)). intros l.
  assert (H : exists l', TTLCache.make_room (TTLCache.maxsize c) l = Some l').
  { clear E. induction l as [| e l IH]; cbn [TTLCache.make_room length].
    - destruct (Z.of_nat 0 + 1 >? _)%Z eqn:E'; [| eexists; reflexivity].
      apply Z.gtb_lt in E'. cbn in E'. lia.
    - destruct (Z.of_nat (S _) + 1 >? _)%Z; [exact IH | eexists; reflexivity]. }
  destruct H as [l' ->]. eexists; reflexivity.
Qed.
End CacheLemmas.

Section Caching.

Lemma cached_hit key tm app producer e :
  TTLCache.getlink (cache app) key = Some e ->
  (t_contains tm < TTLCache.l_expires e)%Q ->
  (t_getitem tm < TTLCache.l_expires e)%Q ->
  cached key tm app producer =
    (Return (TTLCache.l_value e),
     {| data_simulator := data_simulator app;
        cache := TTLCache.with_links (cache app)
                   (TTLCache.touch key (TTLCache.links (cache app))) |}).
Proof.
  intros He H1 H2. apply unexpired_lt in H1, H2.
  unfold cached, TTLCache.contains, TTLCache.getitem. now rewrite He, H1, H2.
Qed.

Lemma cached_hit_inv key tm app producer v app1 :
  TTLCache.contains (cache app) key (t_contains tm) = true ->
  cached key tm app producer = (Return v, app1) ->
  exists e, TTLCache.getlink (cache app1) key = Some e /\ TTLCache.l_value e = v.
Proof.
  unfold cached. intros Hc. rewrite Hc.
  unfold TTLCache.contains, TTLCache.getitem in *.
  destruct (TTLCache.getlink (cache app) key) as [e |] eqn:He; [| discriminate].
  destruct (TTLCache.unexpired (t_getitem tm) e); [| discriminate].
  intros [= <- <-]. exists e. split; [| reflexivity].
  cbn [cache]. now apply getlink_touch.
Qed.

Lemma store_and_return_inv key v tm detail sim c v' app1 :
  store_and_return key v tm detail sim c = (Return v', app1) ->
  v' = v /\ data_simulator app1 = sim /\
  TTLCache.getlink (cache app1) key =
    Some {| TTLCache.l_key := key; TTLCache.l_value := v;
            TTLCache.l_expires := (t_setitem tm + TTLCache.ttl c)%Q |}.
Proof.
  unfold store_and_return.
  destruct (TTLCache.setitem c key v (t_setitem tm)) as [[[] | ex] c'] eqn:E;
    [| discriminate].
  intros [= <- <-]. cbn [data_simulator cache].
  now destruct (getlink_setitem _ _ _ _ _ E).
Qed.

End Caching.

Section TwoCalls.

(** A producer that ends in [store_and_return] under [key] leaves its value
    in the cache, to expire [ttl] after the reading at which it was set. *)
Lemma cached_leaves_entry key tm app producer v app1 :
  (forall a r a', producer a = (Return r, a') ->
     exists e, TTLCache.getlink (cache a') key = Some e /\
               TTLCache.l_value e = r /\
               TTLCache.l_expires e = (t_setitem tm + TTLCache.ttl (cache a))%Q) ->
  cached key tm app producer = (Return v, app1) ->
  exists e, TTLCache.getlink (cache app1) key = Some e /\
            TTLCache.l_value e = v /\
            (TTLCache.contains (cache app) key (t_contains tm) = false ->
             TTLCache.l_expires e = (t_setitem tm + TTLCache.ttl (cache app))%Q).
Proof.
  intros Hprod Hcall.
  destruct (TTLCache.contains (cache app) key (t_contains tm)) eqn:Hc.
  - destruct (cached_hit_inv _ _ _ _ _ _ Hc Hcall) as (e & He & Hv).
    exists e. repeat split; [exact He | exact Hv | discriminate].
  - unfold cached in Hcall. rewrite Hc in Hcall.
    destruct (Hprod _ _ _ Hcall) as (e & He & Hv & Hexp).
    exists e. repeat split; [exact He | exact Hv | now intros _].
Qed.

Lemma market_summary_leaves_entry tm env now app v app1 :
  get_market_summary tm env now app = (Return v, app1) ->
  exists e, TTLCache.getlink (cache app1) "market_summary" = Some e /\
            TTLCache.l_value e = v /\
            (TTLCache.contains (cache app) "market_summary" (t_contains tm) = false ->
             TTLCache.l_expires e = (t_setitem tm + TTLCache.ttl (cache app))%Q).
Proof.
  unfold get_market_summary. apply cached_leaves_entry.
  intros a r a'.
  destruct (generate_market_data (data_simulator a) env) as [[mds | ex] sim];
    [| discriminate].
  intros H. apply store_and_return_inv in H as (-> & _ & He).
  eexists. split; [exact He | split; reflexivity].
Qed.

Lemma price_history_leaves_entry symbol days tm env app v app1 :
  get_stock_price_history symbol days tm env app = (Return v, app1) ->
  exists e,
    TTLCache.getlink (cache app1)
      ("price_history_" +:+ symbol +:+ "_" +:+ pretty days) = Some e /\
    TTLCache.l_value e = v.
Proof.
  unfold get_stock_price_history.
  destruct (negb _); [discriminate |].
  intros H. eapply cached_leaves_entry in H as (e & He & Hv & _);
    [exists e; split; [exact He | exact Hv] |].
  intros a r a'.
  destruct (generate_realistic_price_data _ _ _ _) as [price_data sim].
  intros H'. apply store_and_return_inv in H' as (-> & _ & He).
  eexists. split; [exact He | split; reflexivity].
Qed.

End TwoCalls.

(** C5. When the cache holds an entry for the key that has not expired at
    the two readings of the timer, the operation returns the stored value,
    whatever the producer is, and the simulator is as it was. Hence a call
    of the market summary that returned a value is repeated by any call
    within the lifetime of the entry it left (300 seconds from the reading
    at which it was set, after a miss): same value, and every base price
    as the first call left it. The price history does the same for equal
    symbol and day count. *)
Theorem cache_hit_skips_producer :
  (forall key tm app producer e,
     TTLCache.getlink (cache app) key = Some e ->
     (t_contains tm < TTLCache.l_expires e)%Q ->
     (t_getitem tm < TTLCache.l_expires e)%Q ->
     fst (cached key tm app producer) = Return (TTLCache.l_value e) /\
     data_simulator (snd (cached key tm app producer)) = data_simulator app) /\
  (forall tm1 env1 now1 app v app1,
     get_market_summary tm1 env1 now1 app = (Return v, app1) ->
     exists expires,
       (TTLCache.contains (cache app) "market_summary" (t_contains tm1) = false ->
        expires = (t_setitem tm1 + TTLCache.ttl (cache app))%Q) /\
       forall tm2 env2 now2,
         (t_contains tm2 < expires)%Q -> (t_getitem tm2 < expires)%Q ->
         fst (get_market_summary tm2 env2 now2 app1) = Return v /\
         base_prices (data_simulator (snd (get_market_summary tm2 env2 now2 app1)))
         = base_prices (data_simulator app1)) /\
  (forall symbol days tm1 env1 app v app1,
     get_stock_price_history symbol days tm1 env1 app = (Return v, app1) ->
     exists expires,
       forall tm2 env2,
         (t_contains tm2 < expires)%Q -> (t_getitem tm2 < expires)%Q ->
         fst (get_stock_price_history symbol days tm2 env2 app1) = Return v /\
         data_simulator (snd (get_stock_price_history symbol days tm2 env2 app1))
         = data_simulator app1).
Proof.
  split; [| split].
  - intros key tm app producer e He H1 H2.
    rewrite (cached_hit _ _ _ producer _ He H1 H2). split; reflexivity.
  - intros tm1 env1 now1 app v app1 Hcall.
    destruct (market_summary_leaves_entry _ _ _ _ _ _ Hcall) as (e & He & <- & Hexp).
    exists (TTLCache.l_expires e). split; [exact Hexp |].
    intros tm2 env2 now2 H1 H2. unfold get_market_summary.
    rewrite (cached_hit _ _ _ _ _ He H1 H2). split; reflexivity.
  - intros symbol days tm1 env1 app v app1 Hcall.
    destruct (price_history_leaves_entry _ _ _ _ _ _ _ Hcall) as (e & He & <-).
    exists (TTLCache.l_expires e).
    intros tm2 env2 H1 H2. unfold get_stock_price_history in *.
    destruct (negb _); [discriminate |].
    rewrite (cached_hit _ _ _ _ _ He H1 H2). split; reflexivity.
Qed.

Lemma cache_hit_skips_producer_witness :
  exists v app1,
    get_market_summary (at_time 0) (fun _ => steady_quote) 1700000000000000%Z app0
      = (Return v, app1) /\
    fst (get_market_summary (at_time 299) (fun _ => falling_quote)
           1700000299000000%Z app1) = Return v /\
    base_prices (data_simulator
      (snd (get_market_summary (at_time 299) (fun _ => falling_quote)
              1700000299000000%Z app1)))
    = base_prices (data_simulator app1).
Proof.
  edestruct (proj1 (proj2 cache_hit_skips_producer)
               (at_time 0) (fun _ => steady_quote) 1700000000000000%Z app0)
    as (expires & Hexp & Hsecond).
  - vm_compute. reflexivity.
  - specialize (Hexp eq_refl).
    eexists. eexists. split; [vm_compute; reflexivity |].
    apply Hsecond; rewrite Hexp; reflexivity.
Defined.

(** ** Correlation of a degenerate series *)

Section Degenerate.
Local Open Scope Q_scope.

Lemma Qsum_acc (l : list Q) : forall acc, fold_left Qplus l acc == acc + Qsum l.
Proof.
  unfold Qsum. induction l as [| x l IH]; intros acc; cbn [fold_left].
  - ring.
  - rewrite (IH (acc + x)), (IH (0 + x)). ring.
Qed.

Lemma Qsum_cons (x : Q) (l : list Q) : Qsum (x :: l) == x + Qsum l.
Proof. unfold Qsum at 1. cbn [fold_left]. rewrite Qsum_acc. ring. Qed.

Lemma dot_cons x xs y ys : dot (x :: xs) (y :: ys) == x * y + dot xs ys.
Proof. unfold dot. cbn [combine map fst snd]. apply Qsum_cons. Qed.

Lemma dot_self_nonneg xs : 0 <= dot xs xs.
Proof.
  induction xs as [| x xs IH]; [discriminate |].
  rewrite dot_cons. generalize dependent (dot xs xs). intros d Hd. nra.
Qed.

Lemma dot_self_zero xs : dot xs xs == 0 -> Forall (fun x => x == 0) xs.
Proof.
  induction xs as [| x xs IH]; intros H; [constructor |].
  rewrite dot_cons in H. pose proof (dot_self_nonneg xs) as Hd.
  assert (Hx : x * x == 0) by (generalize dependent (dot xs xs); intros; nra).
  constructor.
  - apply Qmult_integral in Hx. tauto.
  - apply IH. rewrite Hx in H. lra.
Qed.

Lemma dot_zero_l xs : Forall (fun x => x == 0) xs -> forall ys, dot xs ys == 0.
Proof.
  induction 1 as [| x xs Hx _ IH]; intros ys; [reflexivity |].
  destruct ys as [| y ys]; [reflexivity |].
  rewrite dot_cons, IH, Hx. ring.
Qed.

Lemma dot_zero_r ys : Forall (fun y => y == 0) ys -> forall xs, dot xs ys == 0.
Proof.
  induction 1 as [| y ys Hy _ IH]; intros xs.
  - destruct xs; reflexivity.
  - destruct xs as [| x xs]; [reflexivity |].
    rewrite dot_cons, IH, Hy. ring.
Qed.

(** A series without variance is constant: its centred values are zero. *)
Lemma centered_zero xs : variance xs == 0 -> Forall (fun x => x == 0) (centered xs).
Proof.
  unfold variance, cov. intros H.
  destruct xs as [| x [| y xs]].
  - constructor.
  - constructor; [| constructor]. unfold mean, Qsum. cbn [fold_left length].
    change (inject_Z (Z.of_nat 1)) with 1. field.
  - apply dot_self_zero.
    set (n := inject_Z (Z.of_nat (length (x :: y :: xs)) - 1)) in *.
    assert (Hn : 0 < n).
    { unfold n. change 0 with (inject_Z 0). rewrite <- Zlt_Qlt.
      cbn [length]. lia. }
    generalize dependent (dot (centered (x :: y :: xs)) (centered (x :: y :: xs))).
    intros d Hd.
    assert (Hdn : d == d / n * n) by (field; lra).
    rewrite Hdn, Hd. ring.
Qed.

Lemma cov_degenerate xs ys : variance xs == 0 -> cov xs ys == 0 /\ cov ys xs == 0.
Proof.
  intros H. apply centered_zero in H. unfold cov. split.
  - rewrite (dot_zero_l _ H). unfold Qdiv. ring.
  - rewrite (dot_zero_r _ H). unfold Qdiv. ring.
Qed.

Lemma corr_entry_degenerate xs ys :
  variance xs == 0 -> corr_entry xs ys = NaN /\ corr_entry ys xs = NaN.
Proof.
  intros H. destruct (cov_degenerate xs ys H) as [H1 H2].
  apply Qeq_bool_iff in H, H1, H2. unfold corr_entry, div_sqrt.
  rewrite H, H1, H2. split; [reflexivity |].
  destruct (Qeq_bool (variance ys) 0); [reflexivity |].
  destruct (Qle_bool 0 (variance ys)); [| reflexivity].
  cbn iota. now rewrite H2.
Qed.

Lemma Qsum_flat (c : Q) (xs : list Q) :
  Forall (fun x => x == c) xs -> Qsum xs == inject_Z (Z.of_nat (length xs)) * c.
Proof.
  induction 1 as [| x xs Hx _ IH]; [reflexivity |].
  rewrite Qsum_cons, IH, Hx. cbn [length]. rewrite Nat2Z.inj_succ.
  unfold Z.succ. rewrite inject_Z_plus. ring.
Qed.

(** A flat series has no variance. *)
Lemma variance_flat (c : Q) (xs : list Q) :
  Forall (fun x => x == c) xs -> variance xs == 0.
Proof.
  intros H. destruct xs as [| x0 xs0]; [reflexivity |].
  remember (x0 :: xs0) as xs eqn:E.
  assert (Hn : ~ inject_Z (Z.of_nat (length xs)) == 0).
  { change 0 with (inject_Z 0). rewrite inject_Z_injective.
    rewrite E. cbn [length]. lia. }
  unfold variance, cov. rewrite dot_zero_l; [unfold Qdiv; ring |].
  unfold centered, mean.
  apply List.Forall_forall. intros x Hx. apply in_map_iff in Hx as (y & <- & Hy).
  rewrite (Qsum_flat c xs H).
  rewrite List.Forall_forall in H. rewrite (H y Hy).
  field. exact Hn.
Qed.

Lemma entry_corrcoef m i j xs ys :
  nth_error m i = Some xs -> nth_error m j = Some ys ->
  entry (corrcoef m) i j = Some (corr_entry xs ys).
Proof.
  intros Hi Hj. unfold entry, corrcoef.
  rewrite nth_error_map, Hi. cbn [option_map].
  now rewrite nth_error_map, Hj.
Qed.
End Degenerate.

Lemma correlation_returns_matrix tm envs app :
  TTLCache.contains (cache app) "correlation_matrix" (t_contains tm) = false ->
  (1 <= TTLCache.maxsize (cache app))%Z ->
  fst (get_correlation_matrix tm envs app)
  = Return (CorrelationValue
      (corrcoef (fst (price_matrix_loop major_symbols 0 envs (data_simulator app))))).
Proof.
  intros Hmiss Hmax. unfold get_correlation_matrix, cached. rewrite Hmiss.
  destruct (price_matrix_loop major_symbols 0 envs (data_simulator app))
    as [pm sim]. cbn [fst]. unfold store_and_return.
  destruct (setitem_succeeds (cache app) "correlation_matrix"
              (CorrelationValue (corrcoef pm)) (t_setitem tm) Hmax) as [c' ->].
  reflexivity.
Qed.

Lemma entry_degenerate m i j xs ys :
  nth_error m i = Some xs -> nth_error m j = Some ys ->
  (variance xs == 0)%Q ->
  entry (corrcoef m) i j = Some NaN /\ entry (corrcoef m) j i = Some NaN.
Proof.
  intros Hi Hj Hvar.
  destruct (corr_entry_degenerate xs ys Hvar) as [H1 H2].
  rewrite (entry_corrcoef _ _ _ _ _ Hi Hj), (entry_corrcoef _ _ _ _ _ Hj Hi).
  now rewrite H1, H2.
Qed.

(** ** A price path that stands still *)

Section FlatPath.
Local Open Scope Q_scope.

Lemma round_half_even_comp (x y : Q) :
  x == y -> round_half_even x = round_half_even y.
Proof.
  intros H. unfold round_half_even. rewrite (Qfloor_comp x y H).
  assert (Hc : Qcompare (x - inject_Z (Qfloor y)) (1 # 2)
               = Qcompare (y - inject_Z (Qfloor y)) (1 # 2)).
  { apply Qcompare_comp; [now rewrite H | reflexivity]. }
  now rewrite Hc.
Qed.

Lemma round2_comp (x y : Q) : x == y -> round2 x = round2 y.
Proof.
  intros H. unfold round2.
  rewrite (round_half_even_comp (x * 100) (y * 100)); [reflexivity |].
  now rewrite H.
Qed.

(** When the shock cancels the drift, an iteration leaves the price where
    it was and closes at it. *)
Lemma day_step_flat sym days d i cp :
  shock_z d == -1 # 100 -> 0.01 <= cp ->
  close (fst (day_step sym days d i cp)) = round2 cp /\
  snd (day_step sym days d i cp) == cp.
Proof.
  intros Hz Hcp. unfold day_step. cbn [fst snd close].
  set (moved := cp + cp * (drift + volatility * normal 0 1 (shock_z d))).
  assert (E : moved == cp).
  { unfold moved, normal, drift, volatility. rewrite Hz. ring. }
  assert (H : Qmax moved 0.01 == cp).
  { destruct (Q.max_spec moved 0.01) as [[Hlt Hm] | [Hle Hm]]; rewrite Hm.
    - rewrite E in Hlt. lra.
    - exact E. }
  split; [now apply round2_comp | exact H].
Qed.

Lemma price_loop_flat sym days env idx : forall cp,
  (forall i, shock_z (day env i) == -1 # 100) -> 0.01 <= cp ->
  map close (price_loop sym days env idx cp) = repeat (round2 cp) (length idx).
Proof.
  induction idx as [| i rest IH]; intros cp Hz Hcp; [reflexivity |].
  cbn [price_loop].
  destruct (day_step_flat sym days (day env i) i cp (Hz i) Hcp) as [Hc Hs].
  destruct (day_step sym days (day env i) i cp) as [p cp'].
  cbn [fst snd] in Hc, Hs. cbn [map length repeat]. rewrite Hc. f_equal.
  rewrite IH; [| exact Hz | now rewrite Hs].
  now rewrite (round2_comp cp' cp Hs).
Qed.

Lemma generate_flat self sym days env p :
  base_prices self !! sym = Some p ->
  (forall i, shock_z (day env i) == -1 # 100) -> 0.01 <= p ->
  map close (fst (generate_realistic_price_data self sym days env))
  = repeat (round2 p) (Z.to_nat days).
Proof.
  intros Hp Hz H. unfold generate_realistic_price_data. rewrite Hp. cbn [fst].
  rewrite price_loop_flat by assumption. unfold range. now rewrite length_seq.
Qed.

(** With every symbol of the basket on file at [c] and every shock
    cancelling the drift, each of the series is thirty times the close
    [round(c, 2)]. *)
Lemma price_matrix_loop_flat syms c : forall k envs sim,
  (forall s, In s syms -> exists p, base_prices sim !! s = Some p /\ p == c) ->
  (forall k i, shock_z (day (envs k) i) == -1 # 100) -> 0.01 <= c ->
  fst (price_matrix_loop syms k envs sim)
  = map (fun _ => repeat (round2 c) 30) syms.
Proof.
  induction syms as [| sym rest IH]; intros k envs sim Hall Hz Hc; [reflexivity |].
  cbn [price_matrix_loop].
  destruct (Hall sym (or_introl eq_refl)) as (p & Hp & Hpc).
  pose proof (generate_known sim sym 30 (envs k) p Hp) as Hk.
  assert (Hp1 : 0.01 <= p) by now rewrite Hpc.
  pose proof (generate_flat sim sym 30 (envs k) p Hp (Hz k) Hp1) as Hf.
  destruct (generate_realistic_price_data sim sym 30 (envs k)) as [prices sim1].
  cbn [fst snd] in Hk, Hf. subst sim1.
  specialize (IH (S k) envs sim (fun s H => Hall s (or_intror H)) Hz Hc).
  destruct (price_matrix_loop rest (S k) envs sim) as [pm sim2].
  cbn [fst map] in *. rewrite Hf, IH. now rewrite (round2_comp p c Hpc).
Qed.

(** The five series of the basket at 100 under shocks that cancel the
    drift: every close is 100.00. *)
Lemma flat_matrix :
  fst (price_matrix_loop major_symbols 0 (fun _ => flat_env) sim100)
  = repeat (repeat (round2 100) 30) 5.
Proof.
  rewrite (price_matrix_loop_flat major_symbols 100).
  - reflexivity.
  - intros s Hs. exists (900 # 9). split; [| reflexivity].
    unfold major_symbols in Hs. cbn [In] in Hs.
    repeat (destruct Hs as [<- | Hs]; [vm_compute; reflexivity |]).
    destruct Hs.
  - intros k i. reflexivity.
  - lra.
Qed.

Lemma flat_series : Forall (fun x => x == inject_Z 100) (repeat (round2 100) 30).
Proof.
  apply List.Forall_forall. intros x Hx. apply repeat_spec in Hx as ->.
  reflexivity.
Qed.
End FlatPath.

Lemma price_matrix_length envs sim :
  length (fst (price_matrix_loop major_symbols 0 envs sim)) = 5%nat.
Proof.
  unfold major_symbols. cbn [price_matrix_loop].
  repeat (destruct (generate_realistic_price_data _ _ _ _) as [? ?]).
  reflexivity.
Qed.

(** C8, as the code has it. The correlation operation has no error of its
    own for a degenerate series: on a cache miss it returns a matrix of
    five rows, whatever the series are, and when the thirty closes of a
    symbol are all the same whole number (up to 2^48, so that their sums
    and their mean are exact in floating point and the variance np.corrcoef
    computes is exactly zero) every entry in that symbol's row and column
    of the matrix is NaN. *)
Theorem correlation_degenerate_is_nan (tm : Timer) (envs : nat -> GenEnv)
    (app : App) :
  TTLCache.contains (cache app) "correlation_matrix" (t_contains tm) = false ->
  (1 <= TTLCache.maxsize (cache app))%Z ->
  let price_matrix :=
    fst (price_matrix_loop major_symbols 0 envs (data_simulator app)) in
  exists m,
    fst (get_correlation_matrix tm envs app) = Return (CorrelationValue m) /\
    length m = 5%nat /\
    forall i j xs ys (k : Z),
      nth_error price_matrix i = Some xs -> nth_error price_matrix j = Some ys ->
      (1 <= k <= 2 ^ 48)%Z ->
      Forall (fun x => (x == inject_Z k)%Q) xs ->
      entry m i j = Some NaN /\ entry m j i = Some NaN.
Proof.
  intros Hmiss Hmax. cbn zeta.
  exists (corrcoef (fst (price_matrix_loop major_symbols 0 envs (data_simulator app)))).
  split; [| split].
  - now apply correlation_returns_matrix.
  - unfold corrcoef. rewrite length_map. apply price_matrix_length.
  - intros i j xs ys k Hi Hj _ Hflat.
    apply (entry_degenerate _ i j xs ys Hi Hj).
    exact (variance_flat (inject_Z k) xs Hflat).
Qed.

Lemma correlation_degenerate_is_nan_witness :
  exists m,
    fst (get_correlation_matrix (at_time 0) (fun _ => flat_env) app0)
      = Return (CorrelationValue m) /\
    entry m 0 1 = Some NaN /\ entry m 1 0 = Some NaN.
Proof.
  destruct (correlation_degenerate_is_nan (at_time 0) (fun _ => flat_env) app0)
    as (m & Hret & _ & Hnan).
  - reflexivity.
  - vm_compute. discriminate.
  - exists m. split; [exact Hret |].
    apply (Hnan 0%nat 1%nat (repeat (round2 100) 30) (repeat (round2 100) 30) 100%Z).
    + cbn [app0 data_simulator]. rewrite flat_matrix. reflexivity.
    + cbn [app0 data_simulator]. rewrite flat_matrix. reflexivity.
    + split; [lia | vm_compute; discriminate].
    + exact flat_series.
Defined.

(** C8 as claimed fails: when every day's shock cancels the drift, each of
    the five series is flat at 100.00 (zero variance), and the operation
    returns a matrix of NaN entries instead of failing. *)
Lemma degenerate_series_returns_nan :
  exists m,
    fst (price_matrix_loop major_symbols 0 (fun _ => flat_env) sim100)
      = repeat (repeat (round2 100) 30) 5 /\
    (round2 100 == 100)%Q /\
    (variance (repeat (round2 100) 30) == 0)%Q /\
    fst (get_correlation_matrix (at_time 0) (fun _ => flat_env) app0)
      = Return (CorrelationValue m) /\
    entry m 0 0 = Some NaN /\ entry m 0 1 = Some NaN /\ entry m 4 2 = Some NaN.
Proof.
  exists (corrcoef (fst (price_matrix_loop major_symbols 0 (fun _ => flat_env) sim100))).
  assert (Hrow : forall i, (i < 5)%nat ->
    nth_error (fst (price_matrix_loop major_symbols 0 (fun _ => flat_env) sim100)) i
    = Some (repeat (round2 100) 30)).
  { intros i Hi. rewrite flat_matrix.
    do 5 (destruct i as [| i]; [reflexivity |]). lia. }
  pose proof (variance_flat (inject_Z 100) _ flat_series) as Hvar.
  split; [exact flat_matrix |].
  split; [reflexivity |].
  split; [exact Hvar |].
  split; [apply correlation_returns_matrix; [reflexivity | vm_compute; discriminate] |].
  split; [| split].
  - exact (proj1 (entry_degenerate _ 0 0 _ _ (Hrow 0%nat ltac:(lia)) (Hrow 0%nat ltac:(lia)) Hvar)).
  - exact (proj1 (entry_degenerate _ 0 1 _ _ (Hrow 0%nat ltac:(lia)) (Hrow 1%nat ltac:(lia)) Hvar)).
  - exact (proj1 (entry_degenerate _ 4 2 _ _ (Hrow 4%nat ltac:(lia)) (Hrow 2%nat ltac:(lia)) Hvar)).
Qed.

(** * Further properties of the price path *)

Section PricePathMore.
Local Open Scope Q_scope.

Lemma py_int_floor (q : Q) : 0 <= q -> py_int q = Qfloor q.
Proof.
  intros H. unfold py_int, Qfloor. destruct q as [n d]. cbn [Qnum Qden].
  apply Z.quot_div_nonneg; [| lia].
  apply Qnum_nonneg in H. exact H.
Qed.

Lemma py_int_lower (k : Z) (q : Q) : (0 <= k)%Z -> inject_Z k <= q -> (k <= py_int q)%Z.
Proof.
  intros Hk Hq.
  assert (H0 : 0 <= q).
  { eapply Qle_trans; [| exact Hq]. change 0 with (inject_Z 0).
    rewrite <- Zle_Qle. exact Hk. }
  rewrite (py_int_floor q H0), <- (Qfloor_Z k). now apply Qfloor_resp_le.
Qed.

Lemma round_half_even_error (x : Q) :
  x - (1 # 2) <= inject_Z (round_half_even x) /\
  inject_Z (round_half_even x) <= x + (1 # 2).
Proof.
  pose proof (Qfloor_le x) as Hlo. pose proof (Qlt_floor x) as Hhi.
  rewrite inject_Z_plus in Hhi. change (inject_Z 1) with 1 in Hhi.
  unfold round_half_even.
  destruct (Qcompare_spec (x - inject_Z (Qfloor x)) (1 # 2)) as [H | H | H];
    try destruct (Z.even (Qfloor x));
    rewrite ?inject_Z_plus; change (inject_Z 1) with 1; split; lra.
Qed.

(** [round(x, 2)] is within half a cent of [x]. *)
Lemma round2_error (x : Q) : x - (1 # 200) <= round2 x /\ round2 x <= x + (1 # 200).
Proof.
  unfold round2. destruct (round_half_even_error (x * 100)) as [H1 H2].
  generalize dependent (inject_Z (round_half_even (x * 100))). intros r H1 H2.
  split; apply Qmult_le_r with 100; try reflexivity; field_simplify; lra.
Qed.


Lemma day_step_volume_floor sym days d i cp :
  (0 <= base_volume d)%Z ->
  (base_volume d <= sp_volume (fst (day_step sym days d i cp)))%Z.
Proof.
  intros Hb. cbn -[Qabs normal]. apply py_int_lower; [exact Hb |].
  pose proof (Qabs_nonneg (normal 0 0.5 (volume_z d))) as Ha.
  assert (Hq : 0 <= inject_Z (base_volume d)).
  { change 0 with (inject_Z 0). rewrite <- Zle_Qle. exact Hb. }
  generalize dependent (Qabs (normal 0 0.5 (volume_z d))).
  generalize dependent (inject_Z (base_volume d)). intros b Hq a Ha. nra.
Qed.

Lemma day_step_open_band sym days d i cp :
  unit_draw (open_u d) ->
  let p := fst (day_step sym days d i cp) in
  0.98 * close p - 0.0099 <= open_ p /\ open_ p <= 1.02 * close p + 0.0101.
Proof.
  intros [Hu0 Hu1]. cbn -[Qmax round2 uniform].
  set (c := Qmax _ _).
  assert (Hc : 0.01 <= c) by apply Q.le_max_r.
  destruct (round2_error c) as [Hc1 Hc2].
  destruct (round2_error (c * uniform 0.98 1.02 (open_u d))) as [Ho1 Ho2].
  unfold uniform in *.
  generalize dependent (round2 (c * (0.98 + (1.02 - 0.98) * open_u d))).
  generalize dependent (round2 c). clearbody c.
  intros rc Hc1 Hc2 ro Ho1 Ho2. split; nra.
Qed.
End PricePathMore.

Lemma generate_price_data_Forall (P : StockPrice -> Prop) self sym days env :
  (forall i cp, (i < Z.to_nat days)%nat ->
     P (fst (day_step sym days (day env i) i cp))) ->
  Forall P (fst (generate_realistic_price_data self sym days env)).
Proof.
  intros H. destruct (generate_price_data_fst self sym days env) as [bp ->].
  apply List.Forall_forall. intros p Hin.
  apply price_loop_In in Hin as (i & cp & Hi & ->).
  apply H. now apply range_In.
Qed.


(** X2. With the integer of random.randint(1000000, 10000000) within its
    bounds, every returned volume is at least that integer, hence at least
    1,000,000: the multiplier 1 + |normal(0, 0.5)| only scales it up. *)
Theorem price_data_volume_floor (self : FinancialDataSimulator) (sym : string)
    (days : Z) (env : GenEnv) :
  (forall i, (i < Z.to_nat days)%nat ->
     (1000000 <= base_volume (day env i) <= 10000000)%Z) ->
  Forall (fun p => (1000000 <= sp_volume p)%Z)
         (fst (generate_realistic_price_data self sym days env)).
Proof.
  intros Hb. apply generate_price_data_Forall. intros i cp Hi.
  specialize (Hb i Hi).
  pose proof (day_step_volume_floor sym days (day env i) i cp). lia.
Qed.

Lemma price_data_volume_floor_witness :
  Forall (fun p => (1000000 <= sp_volume p)%Z)
         (fst (generate_realistic_price_data sim100 "JPM" 2 calm_env)).
Proof.
  apply (price_data_volume_floor sim100 "JPM" 2 calm_env).
  intros i _. simpl. lia.
Defined.

(** X3. With the unit draw behind np.random.uniform(0.98, 1.02) in [0, 1),
    every returned open is within two percent of the returned close, up to
    the cent that rounding both to two decimals can move them:
    0.98 * close - 0.0099 <= open <= 1.02 * close + 0.0101. *)
Theorem price_data_open_near_close (self : FinancialDataSimulator) (sym : string)
    (days : Z) (env : GenEnv) :
  (forall i, (i < Z.to_nat days)%nat -> unit_draw (open_u (day env i))) ->
  Forall (fun p => (0.98 * close p - 0.0099 <= open_ p)%Q /\
                   (open_ p <= 1.02 * close p + 0.0101)%Q)
         (fst (generate_realistic_price_data self sym days env)).
Proof.
  intros Hu. apply generate_price_data_Forall. intros i cp Hi.
  apply day_step_open_band. now apply Hu.
Qed.

Lemma price_data_open_near_close_witness :
  Forall (fun p => (0.98 * close p - 0.0099 <= open_ p)%Q /\
                   (open_ p <= 1.02 * close p + 0.0101)%Q)
         (fst (generate_realistic_price_data sim100 "JPM" 2 calm_env)).
Proof.
  apply (price_data_open_near_close sim100 "JPM" 2 calm_env).
  intros i _. unfold unit_draw. simpl. split; lra.
Defined.

(** X4. A history starts from the price on file and moves nothing: for a
    registered symbol, the list a call returns is the same after any run
    of earlier price-history calls, for this or for other symbols, as
    without them. *)
Theorem price_data_start_not_shifted (self : FinancialDataSimulator)
    (calls : list (string * Z * GenEnv)) (sym : string) (days : Z) (env : GenEnv) :
  is_Some (base_prices self !! sym) ->
  fst (generate_realistic_price_data (history_calls calls self) sym days env)
  = fst (generate_realistic_price_data self sym days env).
Proof.
  intros [p Hp].
  pose proof (history_calls_keep_registered calls self sym p Hp) as Hp'.
  unfold generate_realistic_price_data. now rewrite Hp, Hp'.
Qed.

Lemma price_data_start_not_shifted_witness :
  fst (generate_realistic_price_data
         (history_calls [("JPM", 30%Z, wild_env); ("ZZZ", 7%Z, calm_env)] sim100)
         "JPM" 2 calm_env)
  = fst (generate_realistic_price_data sim100 "JPM" 2 calm_env).
Proof.
  apply (price_data_start_not_shifted sim100). vm_compute. eexists. reflexivity.
Defined.

(** * Further properties of the snapshot *)

Section SnapshotMore.
Local Open Scope Q_scope.

Lemma market_loop_symbols syms : forall i env self r self',
  market_loop syms i env self = (r, self') -> symbols self' = symbols self.
Proof.
  induction syms as [| sym rest IH]; intros i env self r self'; cbn [market_loop].
  - now intros [= _ <-].
  - destruct (base_prices self !! sym) as [stored |]; [| now intros [= _ <-]].
    destruct (Qeq_bool _ 0); [now intros [= _ <-] |].
    destruct (market_loop rest (S i) env _) as [r1 self1] eqn:Eloop.
    intros [= _ <-]. now rewrite (IH _ _ _ _ _ Eloop).
Qed.

(** The [k]-th quote is the one made for the [k]-th symbol from the price
    on file before the call. *)
Lemma market_loop_nth syms : forall i env self market_data self',
  NoDup syms ->
  market_loop syms i env self = (Ok market_data, self') ->
  forall k md, nth_error market_data k = Some md ->
  exists sym stored,
    nth_error syms k = Some sym /\
    base_prices self !! sym = Some stored /\
    md = make_quote sym stored (env (i + k)%nat).
Proof.
  induction syms as [| sym rest IH]; intros i env self market_data self' Hnd;
    cbn [market_loop].
  - intros [= <- <-] [| k] md; discriminate.
  - destruct (base_prices self !! sym) as [stored |] eqn:Es; [| discriminate].
    destruct (Qeq_bool (quote_prev_close stored (env i)) 0) eqn:Ez; [discriminate |].
    destruct (market_loop rest (S i) env _) as [r1 self1] eqn:Eloop.
    destruct r1 as [mds |]; [| discriminate].
    intros [= <- <-]. inversion Hnd as [| ? ? Hnotin Hnd']; subst.
    rewrite list_elem_of_In in Hnotin.
    intros [| k] md; cbn [nth_error].
    + intros [= <-]. exists sym, stored. rewrite Nat.add_0_r.
      repeat split. exact Es.
    + intros Hk.
      destruct (IH _ _ _ _ _ Hnd' Eloop k md Hk) as (s & st & Hsym & Hst & ->).
      exists s, st. replace (i + S k)%nat with (S i + k)%nat by lia.
      repeat split; [exact Hsym |].
      cbn [base_prices] in Hst. rewrite lookup_insert_ne in Hst; [exact Hst |].
      intros ->. apply Hnotin. eapply nth_error_In. exact Hsym.
Qed.

(** Success, order and what stays positive, for any set [S] of symbols
    that covers the ones visited. *)
Lemma market_loop_ok syms : forall i env self (S : string -> Prop),
  (forall s, In s syms -> S s) ->
  (forall s, S s -> exists p, base_prices self !! s = Some p /\ 0 < p) ->
  (forall k, valid_quote (env k)) ->
  exists market_data self',
    market_loop syms i env self = (Ok market_data, self') /\
    map symbol market_data = syms /\
    (forall s, S s -> exists p, base_prices self' !! s = Some p /\ 0 < p).
Proof.
  induction syms as [| sym rest IH]; intros i env self S Hin Hpos Hvalid;
    cbn [market_loop].
  - exists [], self. repeat split. exact Hpos.
  - destruct (Hpos sym (Hin sym (or_introl eq_refl))) as (stored & -> & Hs).
    destruct (quote_prices_positive stored (env i) Hs (Hvalid i)) as [Hcp Hpc].
    destruct (Qeq_bool (quote_prev_close stored (env i)) 0) eqn:Ez.
    { apply Qeq_bool_iff in Ez. rewrite Ez in Hpc. now apply Qlt_irrefl in Hpc. }
    edestruct (IH (Datatypes.S i) env) with (S := S)
      as (mds & self1 & -> & Hmap & Hpos1); [| | exact Hvalid |].
    + intros s Hs'. apply Hin. now right.
    + intros s Hs'. cbn [base_prices].
      destruct (decide (sym = s)) as [-> | Hne].
      * rewrite lookup_insert_eq. eauto.
      * rewrite lookup_insert_ne by exact Hne. now apply Hpos.
    + eexists. eexists. split; [reflexivity |]. split; [| exact Hpos1].
      cbn [map symbol]. now rewrite Hmap.
Qed.
End SnapshotMore.

Lemma generate_market_data_ok self env :
  prices_positive self -> (forall k, valid_quote (env k)) ->
  exists market_data self',
    generate_market_data self env = (Ok market_data, self') /\
    map symbol market_data = symbols self /\
    symbols self' = symbols self /\
    prices_positive self'.
Proof.
  intros Hpos Hvalid. unfold generate_market_data.
  destruct (market_loop_ok (symbols self) 0 env self
              (fun s => In s (symbols self)) (fun s H => H) Hpos Hvalid)
    as (mds & self' & Hloop & Hmap & Hpos').
  exists mds, self'. pose proof (market_loop_symbols _ _ _ _ _ _ Hloop) as Hsym.
  repeat split; try assumption.
  unfold prices_positive. rewrite Hsym. exact Hpos'.
Qed.

(** X5. With every tracked symbol on file at a positive price and the unit
    draws in [0, 1), generate_market_data raises nothing: it returns one
    quote per tracked symbol, in the order of self.symbols, leaves
    self.symbols as it is and every tracked symbol on file at a positive
    price again. *)
Theorem snapshot_succeeds_in_order (self : FinancialDataSimulator)
    (env : nat -> QuoteDraws) :
  prices_positive self ->
  (forall k, valid_quote (env k)) ->
  exists market_data self',
    generate_market_data self env = (Ok market_data, self') /\
    map symbol market_data = symbols self /\
    symbols self' = symbols self /\
    prices_positive self'.
Proof.
  intros Hpos Hvalid.
  destruct (generate_market_data_ok self env Hpos Hvalid)
    as (mds & self' & Hgen & Hmap & Hsym & Hpos').
  exists mds, self'. repeat split; assumption.
Qed.

Lemma valid_steady_quote : valid_quote_draws steady_quote.
Proof.
  unfold valid_quote_draws, valid_quote, unit_draw; simpl.
  repeat split; (lra || lia).
Defined.

Lemma sim100_positive : prices_positive sim100.
Proof.
  intros s Hs. simpl in Hs.
  repeat (destruct Hs as [<- | Hs];
          [exists (900 # 9)%Q; split; [vm_compute; reflexivity | reflexivity] |]).
  destruct Hs.
Defined.

Lemma snapshot_succeeds_in_order_witness :
  exists market_data self',
    generate_market_data sim100 (fun _ => steady_quote) = (Ok market_data, self') /\
    map symbol market_data = symbols sim100 /\
    symbols self' = symbols sim100 /\
    prices_positive self'.
Proof.
  apply (snapshot_succeeds_in_order sim100 (fun _ => steady_quote)).
  - exact sim100_positive.
  - intros _. exact (proj1 valid_steady_quote).
Defined.

(** X6. The snapshot moves each tracked price by at most five percent: over
    distinct symbols, with positive prices and unit draws in [0, 1), the
    price on file for a tracked symbol after the call lies in
    [0.95 * old, 1.05 * old], both ends included. *)
Theorem snapshot_drift_bounded (self : FinancialDataSimulator)
    (env : nat -> QuoteDraws) (market_data : list MarketData)
    (self' : FinancialDataSimulator) (s : string) :
  NoDup (symbols self) ->
  prices_positive self ->
  (forall k, valid_quote (env k)) ->
  generate_market_data self env = (Ok market_data, self') ->
  In s (symbols self) ->
  exists old new,
    base_prices self !! s = Some old /\
    base_prices self' !! s = Some new /\
    (0.95 * old <= new)%Q /\ (new <= 1.05 * old)%Q.
Proof.
  intros Hnd Hpos Hvalid Hgen Hs.
  destruct (generate_market_data_ok self env Hpos Hvalid)
    as (mds & self1 & Hgen' & Hmap & _).
  rewrite Hgen in Hgen'. injection Hgen' as <- <-.
  apply In_nth_error in Hs as [k Hk].
  assert (Hmd : exists md, nth_error market_data k = Some md /\ symbol md = s).
  { rewrite <- Hmap in Hk. rewrite nth_error_map in Hk.
    destruct (nth_error market_data k) as [md |]; [| discriminate].
    injection Hk as Hk. now exists md. }
  destruct Hmd as (md & Hmd & <-).
  unfold generate_market_data in Hgen.
  destruct (market_loop_quotes _ _ _ _ _ _ Hnd Hgen k md Hmd)
    as (stored & _ & Hst & _ & _ & _ & _ & Hnew).
  exists stored, (quote_current_price stored (env k)).
  split; [exact Hst |]. split; [exact Hnew |].
  destruct (Hpos (symbol md)) as (p & Hp & Hp0).
  { eapply nth_error_In. rewrite <- Hmap, nth_error_map, Hmd. reflexivity. }
  rewrite Hst in Hp. injection Hp as <-.
  destruct (Hvalid k) as [[Hu0 Hu1] _].
  unfold quote_current_price, uniform. split; nra.
Qed.

Lemma snapshot_drift_bounded_witness :
  exists old new,
    base_prices sim100 !! "GS" = Some old /\
    base_prices (snd (generate_market_data sim100 (fun _ => falling_quote))) !! "GS"
      = Some new /\
    (0.95 * old <= new)%Q /\ (new <= 1.05 * old)%Q.
Proof.
  eapply (snapshot_drift_bounded sim100 (fun _ => falling_quote)).
  - exact tracked_symbols_NoDup.
  - exact sim100_positive.
  - intros _. unfold valid_quote, unit_draw. simpl. repeat split; lra.
  - vm_compute. reflexivity.
  - simpl. tauto.
Defined.

Section QuoteFields.
Local Open Scope Q_scope.

Lemma make_quote_change_percent sym stored d :
  0 < stored -> valid_quote d ->
  -1.96 <= change_percent (make_quote sym stored d) /\
  change_percent (make_quote sym stored d) <= 2.04.
Proof.
  intros Hs Hv. destruct (quote_prices_positive stored d Hs Hv) as [Hcp Hpc].
  destruct Hv as [_ [Hu0 Hu1]].
  cbn [make_quote change_percent].
  change (-1.96) with (round2 (-1.961)). change 2.04 with (round2 2.041).
  unfold quote_prev_close in *. unfold uniform in *.
  generalize dependent (quote_current_price stored d). intros cp Hcp Hpc.
  set (w := 0.98 + (1.02 - 0.98) * prev_u d) in *.
  assert (Hw : 0.98 <= w /\ w < 1.02) by (unfold w; split; lra).
  clearbody w.
  assert (E : (cp - cp * w) / (cp * w) * 100 == (100 - 100 * w) / w).
  { field. split; lra. }
  split; apply round2_mono; rewrite E.
  - apply Qle_shift_div_l; [lra | nra].
  - apply Qle_shift_div_r; [lra | nra].
Qed.

Lemma make_quote_caps sym stored d :
  0 < stored -> valid_quote_draws d ->
  (sym = "SPY" ->
     market_cap (make_quote sym stored d) = None /\
     pe_ratio (make_quote sym stored d) = None) /\
  (sym <> "SPY" ->
     exists c e,
       market_cap (make_quote sym stored d) = Some c /\ 0 < c /\
       pe_ratio (make_quote sym stored d) = Some e /\ 10 <= e /\ e <= 35).
Proof.
  intros Hs (Hv & Hpe & Hcap & _).
  destruct (quote_prices_positive stored d Hs Hv) as [Hcp _].
  cbn [make_quote market_cap pe_ratio]. split.
  - intros ->. split; reflexivity.
  - intros Hne. apply String.eqb_neq in Hne. rewrite Hne. cbn [negb truthy].
    assert (Hc : 0 < quote_current_price stored d * inject_Z (cap_shares d)).
    { apply Qmult_lt_0_compat; [exact Hcp |].
      change 0 with (inject_Z 0). rewrite <- Zlt_Qlt. lia. }
    destruct (Qeq_bool _ 0) eqn:Ez.
    { apply Qeq_bool_iff in Ez. rewrite Ez in Hc. now apply Qlt_irrefl in Hc. }
    cbn [negb]. eexists. eexists. split; [reflexivity |]. split; [exact Hc |].
    split; [reflexivity |].
    apply uniform_range; [discriminate | exact Hpe].
Qed.
End QuoteFields.

(** X7. Over distinct symbols at positive prices and with unit draws in
    [0, 1), every quote of a snapshot reports a change_percent between
    -1.96 and 2.04: the previous close is within two percent of the new
    price. *)
Theorem snapshot_change_percent_range (self : FinancialDataSimulator)
    (env : nat -> QuoteDraws) (market_data : list MarketData)
    (self' : FinancialDataSimulator) :
  NoDup (symbols self) ->
  prices_positive self ->
  (forall k, valid_quote (env k)) ->
  generate_market_data self env = (Ok market_data, self') ->
  Forall (fun md => (-1.96 <= change_percent md)%Q /\ (change_percent md <= 2.04)%Q)
         market_data.
Proof.
  intros Hnd Hpos Hvalid Hgen. apply List.Forall_forall. intros md Hin.
  apply In_nth_error in Hin as [k Hk]. unfold generate_market_data in Hgen.
  destruct (market_loop_nth _ _ _ _ _ _ Hnd Hgen k md Hk)
    as (sym & stored & Hsym & Hst & ->).
  destruct (Hpos sym (nth_error_In _ _ Hsym)) as (p & Hp & Hp0).
  rewrite Hst in Hp. injection Hp as <-.
  now apply make_quote_change_percent.
Qed.

Lemma snapshot_change_percent_range_witness :
  match fst (generate_market_data sim100 (fun _ => steady_quote)) with
  | Ok market_data =>
      Forall (fun md => (-1.96 <= change_percent md)%Q /\
                        (change_percent md <= 2.04)%Q) market_data
  | Raise _ => False
  end.
Proof.
  destruct (generate_market_data sim100 (fun _ => steady_quote))
    as [[market_data | e] self'] eqn:E; cbn [fst].
  - apply (snapshot_change_percent_range sim100 (fun _ => steady_quote)
             market_data self').
    + exact tracked_symbols_NoDup.
    + exact sim100_positive.
    + intros _. exact (proj1 valid_steady_quote).
    + exact E.
  - vm_compute in E. discriminate E.
Defined.

(** X8. Over distinct symbols at positive prices and with all draws within
    the bounds of their calls, the quote of SPY carries neither market cap
    nor P/E, and every other quote carries a positive market cap and a P/E
    within [10, 35]. *)
Theorem snapshot_caps (self : FinancialDataSimulator)
    (env : nat -> QuoteDraws) (market_data : list MarketData)
    (self' : FinancialDataSimulator) :
  NoDup (symbols self) ->
  prices_positive self ->
  (forall k, valid_quote_draws (env k)) ->
  generate_market_data self env = (Ok market_data, self') ->
  Forall (fun md =>
            (symbol md = "SPY" -> market_cap md = None /\ pe_ratio md = None) /\
            (symbol md <> "SPY" ->
               exists c e, market_cap md = Some c /\ (0 < c)%Q /\
                           pe_ratio md = Some e /\ (10 <= e)%Q /\ (e <= 35)%Q))
         market_data.
Proof.
  intros Hnd Hpos Hvalid Hgen. apply List.Forall_forall. intros md Hin.
  apply In_nth_error in Hin as [k Hk]. unfold generate_market_data in Hgen.
  destruct (market_loop_nth _ _ _ _ _ _ Hnd Hgen k md Hk)
    as (sym & stored & Hsym & Hst & ->).
  destruct (Hpos sym (nth_error_In _ _ Hsym)) as (p & Hp & Hp0).
  rewrite Hst in Hp. injection Hp as <-.
  change (symbol (make_quote sym stored (env (0 + k)%nat))) with sym.
  now apply make_quote_caps.
Qed.

Lemma snapshot_caps_witness :
  match fst (generate_market_data sim100 (fun _ => steady_quote)) with
  | Ok market_data =>
      Forall (fun md =>
            (symbol md = "SPY" -> market_cap md = None /\ pe_ratio md = None) /\
            (symbol md <> "SPY" ->
               exists c e, market_cap md = Some c /\ (0 < c)%Q /\
                           pe_ratio md = Some e /\ (10 <= e)%Q /\ (e <= 35)%Q))
         market_data
  | Raise _ => False
  end.
Proof.
  destruct (generate_market_data sim100 (fun _ => steady_quote))
    as [[market_data | e] self'] eqn:E; cbn [fst].
  - apply (snapshot_caps sim100 (fun _ => steady_quote) market_data self').
    + exact tracked_symbols_NoDup.
    + exact sim100_positive.
    + intros _. exact valid_steady_quote.
    + exact E.
  - vm_compute in E. discriminate E.
Defined.

(** X9. Whether it succeeds or raises, generate_market_data leaves
    self.symbols as it is and touches no price but those of the tracked
    symbols: a symbol registered by a price-history call keeps its price
    over every snapshot. *)
Theorem snapshot_frame (self : FinancialDataSimulator) (env : nat -> QuoteDraws) :
  symbols (snd (generate_market_data self env)) = symbols self /\
  forall s, ~ In s (symbols self) ->
    base_prices (snd (generate_market_data self env)) !! s = base_prices self !! s.
Proof.
  unfold generate_market_data.
  destruct (market_loop (symbols self) 0 env self) as [r self'] eqn:E. cbn [snd].
  split.
  - exact (market_loop_symbols _ _ _ _ _ _ E).
  - intros s Hs. exact (market_loop_frame _ _ _ _ _ _ s E Hs).
Qed.

(** * Further properties of the ranking *)

Section RankingMore.
Context {A K : Type} (le : K -> K -> Prop) (leb : K -> K -> bool) (key : A -> K).
Hypothesis leb_le : forall a b, leb a b = true <-> le a b.
Hypothesis le_trans : forall a b c, le a b -> le b c -> le a c.

Lemma slice_to_highest n l :
  descending le key l ->
  forall a b, In a (slice_to n l) -> In b (skipn n l) -> le (key b) (key a).
Proof.
  intros Hs. unfold slice_to.
  rewrite <- (firstn_skipn n l) in Hs at 1.
  now apply descending_app_inv in Hs.
Qed.

Lemma insert_desc_ties c x l :
  List.filter (ties leb key c) (insert_desc leb key x l)
  = List.filter (ties leb key c) (x :: l).
Proof.
  induction l as [| y l IH]; cbn [insert_desc]; [reflexivity |].
  destruct (leb (key y) (key x)) eqn:E; [reflexivity |].
  cbn [List.filter] in *. rewrite IH.
  destruct (ties leb key c x) eqn:Ex; destruct (ties leb key c y) eqn:Ey;
    try reflexivity.
  exfalso. unfold ties in Ex, Ey.
  apply andb_true_iff in Ex as [_ Ex]. apply andb_true_iff in Ey as [Ey _].
  apply leb_le in Ex, Ey. pose proof (le_trans _ _ _ Ey Ex) as H.
  apply leb_le in H. congruence.
Qed.

Lemma sorted_reverse_ties c l :
  List.filter (ties leb key c) (sorted_reverse leb key l)
  = List.filter (ties leb key c) l.
Proof.
  induction l as [| x l IH]; cbn [sorted_reverse]; [reflexivity |].
  rewrite insert_desc_ties. cbn [List.filter]. now rewrite IH.
Qed.
End RankingMore.

Lemma slices_of_small {A} (l : list A) :
  (length l <= 5)%nat -> slice_to 5 l = l /\ slice_last 5 l = l.
Proof.
  intros H. unfold slice_to, slice_last. split.
  - now apply firstn_all2.
  - replace (length l - 5)%nat with 0%nat by lia. reflexivity.
Qed.

Lemma slices_of_large {A} (l : list A) :
  (10 <= length l)%nat ->
  exists mid, l = slice_to 5 l ++ mid ++ slice_last 5 l.
Proof.
  intros H. unfold slice_to, slice_last.
  exists (firstn (length l - 10) (skipn 5 l)).
  rewrite <- (firstn_skipn 5 l) at 1. f_equal.
  rewrite <- (firstn_skipn (length l - 10) (skipn 5 l)) at 1. f_equal.
  rewrite skipn_skipn. f_equal. lia.
Qed.

(** X10. For every batch of n quotes, top_gainers holds the min(5, n) quotes
    of highest change_percent and most_active the min(5, n) quotes of
    highest volume: each has exactly min(5, n) quotes, is a part of the
    batch, and no quote left out of it has a higher key than a quote in
    it. *)
Theorem summary_top_are_highest (market_data : list MarketData) (now : datetime) :
  let s := summarize market_data now in
  (length (top_gainers s) = Nat.min 5 (length market_data) /\
   exists rest,
     Permutation market_data (top_gainers s ++ rest) /\
     forall a b, In a (top_gainers s) -> In b rest ->
                 (change_percent b <= change_percent a)%Q) /\
  (length (most_active s) = Nat.min 5 (length market_data) /\
   exists rest,
     Permutation market_data (most_active s ++ rest) /\
     forall a b, In a (most_active s) -> In b rest -> (volume b <= volume a)%Z).
Proof.
  cbn zeta. unfold summarize. cbn [top_gainers most_active]. split; split.
  - unfold slice_to. now rewrite length_firstn, sorted_reverse_length.
  - exists (skipn 5 (sorted_reverse Qle_bool change_percent market_data)). split.
    + unfold slice_to. rewrite firstn_skipn. symmetry. apply sorted_reverse_perm.
    + apply slice_to_highest, sorted_by_change_descending.
  - unfold slice_to. now rewrite length_firstn, sorted_reverse_length.
  - exists (skipn 5 (sorted_reverse Z.leb volume market_data)). split.
    + unfold slice_to. rewrite firstn_skipn. symmetry. apply sorted_reverse_perm.
    + apply (slice_to_highest Z.le), sorted_by_volume_descending.
Qed.

(** X11. Small and large batches. With at most five quotes, top_gainers and
    top_losers are the same list, the whole batch in descending order. With
    at least ten, they are the two ends of the descending sort and share no
    position: the batch is top_gainers, then the quotes in between, then
    top_losers. *)
Theorem summary_gainers_and_losers (market_data : list MarketData) (now : datetime) :
  let s := summarize market_data now in
  ((length market_data <= 5)%nat ->
     top_gainers s = top_losers s /\ Permutation market_data (top_gainers s)) /\
  ((10 <= length market_data)%nat ->
     exists mid, Permutation market_data (top_gainers s ++ mid ++ top_losers s) /\
                 descending Qle change_percent (top_gainers s ++ mid ++ top_losers s)).
Proof.
  cbn zeta. unfold summarize. cbn [top_gainers top_losers].
  set (by_change := sorted_reverse Qle_bool change_percent market_data).
  assert (Hlen : length by_change = length market_data)
    by apply sorted_reverse_length.
  assert (Hperm : Permutation market_data by_change)
    by (symmetry; apply sorted_reverse_perm).
  split; intros Hn; rewrite <- Hlen in Hn.
  - destruct (slices_of_small by_change Hn) as [-> ->]. split; [reflexivity | exact Hperm].
  - destruct (slices_of_large by_change Hn) as [mid Hmid].
    exists mid. rewrite <- Hmid. split; [exact Hperm |].
    apply sorted_by_change_descending.
Qed.

Lemma summary_gainers_and_losers_witness :
  top_gainers (summarize two_quotes 0%Z) = top_losers (summarize two_quotes 0%Z) /\
  exists mid,
    Permutation (repeat (quote "A" 1 10 None) 12)
      (top_gainers (summarize (repeat (quote "A" 1 10 None) 12) 0%Z) ++ mid ++
       top_losers (summarize (repeat (quote "A" 1 10 None) 12) 0%Z)).
Proof.
  split.
  - apply (proj1 (summary_gainers_and_losers two_quotes 0%Z)). simpl. lia.
  - destruct (proj2 (summary_gainers_and_losers (repeat (quote "A" 1 10 None) 12) 0%Z))
      as (mid & Hperm & _); [simpl; lia |].
    exists mid. exact Hperm.
Defined.

(** X12. The ranking is stable: among quotes whose change_percent ties
    (is equal as a number), the order of the batch is kept in the
    descending sort, and likewise for equal volumes. *)
Theorem summary_sort_is_stable (market_data : list MarketData) :
  (forall c : Q,
     List.filter (ties Qle_bool change_percent c)
       (sorted_reverse Qle_bool change_percent market_data)
     = List.filter (ties Qle_bool change_percent c) market_data) /\
  (forall v : Z,
     List.filter (fun md => (volume md =? v)%Z)
       (sorted_reverse Z.leb volume market_data)
     = List.filter (fun md => (volume md =? v)%Z) market_data).
Proof.
  split.
  - intros c. apply (sorted_reverse_ties Qle).
    + apply Qle_bool_iff.
    + intros a b d. apply Qle_trans.
  - intros v.
    rewrite (filter_ext (fun md => (volume md =? v)%Z) (ties Z.leb volume v)).
    + rewrite (filter_ext (fun md => (volume md =? v)%Z) (ties Z.leb volume v)).
      * apply (sorted_reverse_ties Z.le); [apply Z.leb_le | apply Z.le_trans].
      * intros md. unfold ties. lia.
    + intros md. unfold ties. lia.
Qed.

(** * Further properties of the endpoints *)

Section EndpointsMore.

Lemma contains_expired (c : TTLCache.t CacheValue) k now e :
  TTLCache.getlink c k = Some e -> (TTLCache.l_expires e <= now)%Q ->
  TTLCache.contains c k now = false.
Proof.
  intros He Hexp. unfold TTLCache.contains. rewrite He.
  unfold TTLCache.unexpired. apply Qle_bool_iff in Hexp. now rewrite Hexp.
Qed.

Lemma cached_miss key tm app producer :
  TTLCache.contains (cache app) key (t_contains tm) = false ->
  cached key tm app producer = producer app.
Proof. intros H. unfold cached. now rewrite H. Qed.

Lemma store_and_return_ok key v tm detail sim (c : TTLCache.t CacheValue) :
  (1 <= TTLCache.maxsize c)%Z ->
  exists c',
    store_and_return key v tm detail sim c
      = (Return v, {| data_simulator := sim; cache := c' |}) /\
    TTLCache.getlink c' key =
      Some {| TTLCache.l_key := key; TTLCache.l_value := v;
              TTLCache.l_expires := (t_setitem tm + TTLCache.ttl c)%Q |} /\
    TTLCache.maxsize c' = TTLCache.maxsize c /\
    TTLCache.ttl c' = TTLCache.ttl c.
Proof.
  intros Hmax. unfold store_and_return.
  destruct (setitem_succeeds c key v (t_setitem tm) Hmax) as [c' E].
  rewrite E. exists c'. split; [reflexivity |].
  destruct (getlink_setitem _ _ _ _ _ E) as [Hl Httl].
  split; [exact Hl |]. split; [| exact Httl].
  unfold TTLCache.setitem in E.
  destruct (1 >? TTLCache.maxsize c)%Z; [discriminate |].
  destruct (match find _ _ with Some _ => _ | None => _ end); [| discriminate].
  now injection E as <-.
Qed.

(** What a market-summary call does when the membership test finds no
    visible entry. *)
Lemma market_summary_on_miss tm env now app :
  prices_positive (data_simulator app) ->
  (forall k, valid_quote (env k)) ->
  TTLCache.contains (cache app) "market_summary" (t_contains tm) = false ->
  (1 <= TTLCache.maxsize (cache app))%Z ->
  exists market_data sim',
    generate_market_data (data_simulator app) env = (Ok market_data, sim') /\
    map symbol market_data = symbols (data_simulator app) /\
    prices_positive sim' /\
    fst (get_market_summary tm env now app)
      = Return (SummaryValue (summarize market_data now)) /\
    data_simulator (snd (get_market_summary tm env now app)) = sim' /\
    TTLCache.getlink (cache (snd (get_market_summary tm env now app)))
        "market_summary"
      = Some {| TTLCache.l_key := "market_summary";
                TTLCache.l_value := SummaryValue (summarize market_data now);
                TTLCache.l_expires :=
                  (t_setitem tm + TTLCache.ttl (cache app))%Q |} /\
    TTLCache.maxsize (cache (snd (get_market_summary tm env now app)))
      = TTLCache.maxsize (cache app).
Proof.
  intros Hpos Hvalid Hmiss Hmax.
  destruct (generate_market_data_ok _ env Hpos Hvalid)
    as (mds & sim' & Hgen & Hmap & _ & Hpos').
  exists mds, sim'. unfold get_market_summary.
  rewrite (cached_miss _ _ _ _ Hmiss), Hgen.
  destruct (store_and_return_ok "market_summary"
              (SummaryValue (summarize mds now)) tm
              "Failed to generate market summary" sim' (cache app) Hmax)
    as (c' & -> & Hl & Hm & _).
  cbn [fst snd data_simulator cache]. repeat split; assumption.
Qed.
End EndpointsMore.

(** X13. A market-summary call that finds no visible entry (none, or an
    expired one), in a state with every tracked symbol on file at a positive
    price, with unit draws in [0, 1) and a cache of capacity at least 1,
    never ends in an error: it returns the summary of a fresh snapshot with
    total_symbols = len(symbols), the simulator is the one the snapshot
    leaves, and the summary is in the cache to expire ttl after the reading
    at which it was set. *)
Theorem market_summary_miss (tm : Timer) (env : nat -> QuoteDraws)
    (now : datetime) (app : App) :
  prices_positive (data_simulator app) ->
  (forall k, valid_quote (env k)) ->
  TTLCache.contains (cache app) "market_summary" (t_contains tm) = false ->
  (1 <= TTLCache.maxsize (cache app))%Z ->
  exists market_data sim',
    generate_market_data (data_simulator app) env = (Ok market_data, sim') /\
    fst (get_market_summary tm env now app)
      = Return (SummaryValue (summarize market_data now)) /\
    total_symbols (summarize market_data now)
      = Z.of_nat (length (symbols (data_simulator app))) /\
    data_simulator (snd (get_market_summary tm env now app)) = sim' /\
    TTLCache.getlink (cache (snd (get_market_summary tm env now app)))
        "market_summary"
      = Some {| TTLCache.l_key := "market_summary";
                TTLCache.l_value := SummaryValue (summarize market_data now);
                TTLCache.l_expires :=
                  (t_setitem tm + TTLCache.ttl (cache app))%Q |}.
Proof.
  intros Hpos Hvalid Hmiss Hmax.
  destruct (market_summary_on_miss tm env now app Hpos Hvalid Hmiss Hmax)
    as (mds & sim' & Hgen & Hmap & _ & Hret & Hsim & Hlink & _).
  exists mds, sim'. repeat split; try assumption.
  cbn [summarize total_symbols]. now rewrite <- Hmap, length_map.
Qed.

Lemma market_summary_miss_witness :
  exists market_data sim',
    generate_market_data sim100 (fun _ => steady_quote) = (Ok market_data, sim') /\
    fst (get_market_summary (at_time 0) (fun _ => steady_quote) 0%Z app0)
      = Return (SummaryValue (summarize market_data 0%Z)) /\
    total_symbols (summarize market_data 0%Z) = 20%Z.
Proof.
  destruct (market_summary_miss (at_time 0) (fun _ => steady_quote) 0%Z app0)
    as (mds & sim' & Hgen & Hret & Htot & _).
  - exact sim100_positive.
  - intros _. exact (proj1 valid_steady_quote).
  - reflexivity.
  - vm_compute. discriminate.
  - exists mds, sim'. split; [exact Hgen |]. split; [exact Hret | exact Htot].
Defined.

(** X14. After the TTL the summary is regenerated. When a call that missed
    the cache has returned a summary, a later call whose membership test
    reads the timer at or after the expiry (the reading at which the first
    was set plus ttl) does not return that summary again: with unit draws
    in [0, 1) it takes a new snapshot from the prices the first call left
    and returns its summary, and the prices advance once more. *)
Theorem market_summary_regenerated_after_ttl (tm1 tm2 : Timer)
    (env1 env2 : nat -> QuoteDraws) (now1 now2 : datetime) (app : App) :
  prices_positive (data_simulator app) ->
  (forall k, valid_quote (env1 k)) ->
  (forall k, valid_quote (env2 k)) ->
  TTLCache.contains (cache app) "market_summary" (t_contains tm1) = false ->
  (1 <= TTLCache.maxsize (cache app))%Z ->
  (t_setitem tm1 + TTLCache.ttl (cache app) <= t_contains tm2)%Q ->
  let app1 := snd (get_market_summary tm1 env1 now1 app) in
  exists market_data sim2,
    generate_market_data (data_simulator app1) env2 = (Ok market_data, sim2) /\
    fst (get_market_summary tm2 env2 now2 app1)
      = Return (SummaryValue (summarize market_data now2)) /\
    data_simulator (snd (get_market_summary tm2 env2 now2 app1)) = sim2.
Proof.
  intros Hpos Hv1 Hv2 Hmiss Hmax Hexp. cbn zeta.
  destruct (market_summary_on_miss tm1 env1 now1 app Hpos Hv1 Hmiss Hmax)
    as (mds1 & sim1 & _ & _ & Hpos1 & _ & Hsim1 & Hlink & Hmax1).
  rewrite <- Hsim1 in Hpos1.
  assert (Hmiss2 : TTLCache.contains
            (cache (snd (get_market_summary tm1 env1 now1 app)))
            "market_summary" (t_contains tm2) = false)
    by (eapply contains_expired; [exact Hlink | exact Hexp]).
  rewrite <- Hmax1 in Hmax.
  destruct (market_summary_on_miss tm2 env2 now2 _ Hpos1 Hv2 Hmiss2 Hmax)
    as (mds2 & sim2 & Hgen & _ & _ & Hret & Hsim2 & _).
  exists mds2, sim2. repeat split; assumption.
Qed.

Lemma market_summary_regenerated_after_ttl_witness :
  let app1 := snd (get_market_summary (at_time 0) (fun _ => steady_quote) 0%Z app0) in
  exists market_data sim2,
    generate_market_data (data_simulator app1) (fun _ => falling_quote)
      = (Ok market_data, sim2) /\
    fst (get_market_summary (at_time 300) (fun _ => falling_quote) 5%Z app1)
      = Return (SummaryValue (summarize market_data 5%Z)) /\
    data_simulator
      (snd (get_market_summary (at_time 300) (fun _ => falling_quote) 5%Z app1))
    = sim2.
Proof.
  apply (market_summary_regenerated_after_ttl (at_time 0) (at_time 300)
           (fun _ => steady_quote) (fun _ => falling_quote) 0%Z 5%Z app0).
  - exact sim100_positive.
  - intros _. exact (proj1 valid_steady_quote).
  - intros _. unfold valid_quote, unit_draw. simpl. repeat split; lra.
  - reflexivity.
  - vm_compute. discriminate.
  - vm_compute. discriminate.
Defined.

(** X15. The lookup reads the timer twice, outside the try block. When the
    entry is still visible at the membership test but has expired at the
    read that follows, the read raises KeyError and nothing catches it: the
    request ends in that exception, the producer does not run and the
    simulator is as it was. *)
Theorem lookup_expiring_between_readings (key : string) (tm : Timer) (app : App)
    (producer : App -> Response * App) (e : TTLCache.Link CacheValue) :
  TTLCache.getlink (cache app) key = Some e ->
  (t_contains tm < TTLCache.l_expires e)%Q ->
  (TTLCache.l_expires e <= t_getitem tm)%Q ->
  fst (cached key tm app producer) = Unhandled (KeyError key) /\
  data_simulator (snd (cached key tm app producer)) = data_simulator app.
Proof.
  intros He H1 H2. apply unexpired_lt in H1.
  unfold cached, TTLCache.contains, TTLCache.getitem. rewrite He, H1.
  unfold TTLCache.unexpired. apply Qle_bool_iff in H2. rewrite H2.
  split; reflexivity.
Qed.

Lemma lookup_expiring_between_readings_witness :
  let app1 := snd (get_market_summary (at_time 0) (fun _ => steady_quote) 0%Z app0) in
  fst (get_market_summary
         {| t_contains := 299; t_getitem := 300; t_setitem := 300 |}
         (fun _ => falling_quote) 5%Z app1)
  = Unhandled (KeyError "market_summary").
Proof.
  cbn zeta. unfold get_market_summary at 1.
  eapply (lookup_expiring_between_readings "market_summary").
  - vm_compute. reflexivity.
  - reflexivity.
  - vm_compute. discriminate.
Defined.

Section HistoryKeys.

Lemma pretty_N_go_chars (c : Ascii.ascii) (x : N) : forall s,
  (forall n, c <> pretty_N_char n) -> ~ In c (chars s) ->
  ~ In c (chars (pretty_N_go x s)).
Proof.
  induction (N.lt_wf_0 x) as [x _ IH]. intros s Hc Hs.
  assert (x = 0 \/ 0 < x)%N as [-> | Hx] by lia.
  - now rewrite pretty_N_go_0.
  - rewrite pretty_N_go_step by exact Hx. apply IH.
    + now apply N.div_lt.
    + exact Hc.
    + cbn [chars]. intros [H | H]; [| now apply Hs].
      symmetry in H. now apply Hc in H.
Qed.

Lemma underscore_no_digit n : underscore <> pretty_N_char n.
Proof. unfold pretty_N_char. repeat case_match; discriminate. Qed.

Lemma pretty_Z_no_underscore (z : Z) : ~ In underscore (chars (pretty z)).
Proof.
  assert (Hpos : forall p : positive, ~ In underscore (chars (pretty p))).
  { intros p. unfold pretty, pretty_positive, pretty, pretty_N.
    destruct (decide (N.pos p = 0%N)); [discriminate |].
    apply pretty_N_go_chars; [apply underscore_no_digit | intros []]. }
  destruct z as [| p | p]; unfold pretty, pretty_Z.
  - cbn. intros [H | []]. discriminate H.
  - apply Hpos.
  - cbn [String.append chars]. intros [H | H]; [discriminate H |].
    now apply (Hpos p).
Qed.

Lemma chars_app s t : chars (s +:+ t) = chars s ++ chars t.
Proof.
  induction s as [| c s IH]; [reflexivity |].
  change (chars (String c s +:+ t)) with (c :: chars (s +:+ t)).
  now rewrite IH.
Qed.

Lemma string_app_cancel_l (p a b : string) : p +:+ a = p +:+ b -> a = b.
Proof.
  induction p as [| c p IH]; [trivial |].
  change (String c p +:+ ?x) with (String c (p +:+ x)).
  intros H. injection H as H. now apply IH.
Qed.

(** Two strings that end in an underscore and a tail free of underscores
    are equal only when their parts are. *)
Lemma split_at_last_underscore s1 : forall s2 p1 p2,
  ~ In underscore (chars p1) -> ~ In underscore (chars p2) ->
  s1 +:+ String underscore p1 = s2 +:+ String underscore p2 ->
  s1 = s2 /\ p1 = p2.
Proof.
  induction s1 as [| c s1 IH]; intros [| d s2] p1 p2 H1 H2 H;
    change (String ?a ?x +:+ ?y) with (String a (x +:+ y)) in H;
    change ("" +:+ ?y) with y in H.
  - injection H as H. now split.
  - injection H as Hd Hp. exfalso. apply H1. rewrite Hp, chars_app.
    apply in_or_app. right. now left.
  - injection H as Hd Hp. exfalso. apply H2. rewrite <- Hp, chars_app.
    apply in_or_app. right. now left.
  - injection H as Hd Hp. destruct (IH _ _ _ H1 H2 Hp) as [-> ->].
    rewrite Hd. now split.
Qed.
End HistoryKeys.

(** X16. A price-history request with days in [1, 365] that finds no
    visible entry, with a cache of capacity at least 1, returns exactly
    days points, every one for the upper-cased symbol; the symbol is then
    on file under its upper-cased name, and the list is cached under the
    key built from the symbol as it was given. *)
Theorem price_history_miss (symbol : string) (days : Z) (tm : Timer)
    (env : GenEnv) (app : App) :
  (1 <= days <= 365)%Z ->
  TTLCache.contains (cache app) (price_history_key symbol days) (t_contains tm)
    = false ->
  (1 <= TTLCache.maxsize (cache app))%Z ->
  let out := get_stock_price_history symbol days tm env app in
  exists prices,
    fst out = Return (HistoryValue prices) /\
    Z.of_nat (length prices) = days /\
    Forall (fun p => sp_symbol p = upper symbol) prices /\
    is_Some (base_prices (data_simulator (snd out)) !! upper symbol) /\
    TTLCache.getlink (cache (snd out)) (price_history_key symbol days)
      = Some {| TTLCache.l_key := price_history_key symbol days;
                TTLCache.l_value := HistoryValue prices;
                TTLCache.l_expires :=
                  (t_setitem tm + TTLCache.ttl (cache app))%Q |}.
Proof.
  intros Hdays Hmiss Hmax. cbn zeta. unfold get_stock_price_history.
  replace (negb ((1 <=? days)%Z && (days <=? 365)%Z)) with false
    by (symmetry; apply negb_false_iff, andb_true_iff; split; apply Z.leb_le; lia).
  fold (price_history_key symbol days).
  rewrite (cached_miss _ _ _ _ Hmiss).
  destruct (generate_realistic_price_data (data_simulator app) (upper symbol)
              days env) as [prices sim] eqn:Egen.
  destruct (store_and_return_ok (price_history_key symbol days)
              (HistoryValue prices) tm
              ("Failed to get price history for " +:+ symbol) sim (cache app) Hmax)
    as (c' & -> & Hl & _).
  cbn [fst snd data_simulator cache]. exists prices.
  assert (Hp : prices = fst (generate_realistic_price_data (data_simulator app)
                               (upper symbol) days env)) by now rewrite Egen.
  assert (Hs : sim = snd (generate_realistic_price_data (data_simulator app)
                            (upper symbol) days env)) by now rewrite Egen.
  repeat split.
  - rewrite Hp, generate_price_data_length. lia.
  - rewrite Hp. apply generate_price_data_Forall. intros i cp _. reflexivity.
  - rewrite Hs. destruct (base_prices (data_simulator app) !! upper symbol) as [p |] eqn:E.
    + rewrite (generate_known _ _ _ _ _ E), E. eauto.
    + rewrite (generate_unknown _ _ _ _ E). cbn [base_prices].
      rewrite lookup_insert_eq. eauto.
  - exact Hl.
Qed.

Lemma price_history_miss_witness :
  exists prices,
    fst (get_stock_price_history "jpm" 2 (at_time 0) calm_env app0)
      = Return (HistoryValue prices) /\
    Z.of_nat (length prices) = 2%Z /\
    Forall (fun p => sp_symbol p = "JPM") prices.
Proof.
  destruct (price_history_miss "jpm" 2 (at_time 0) calm_env app0)
    as (prices & Hret & Hlen & Hsym & _).
  - lia.
  - reflexivity.
  - vm_compute. discriminate.
  - exists prices. split; [exact Hret |]. split; [exact Hlen | exact Hsym].
Defined.

(** X17. The cache key of the price history tells requests apart exactly:
    two requests share a key only if they name the same symbol, letter for
    letter, and the same day count, and no such key is the key of the market
    summary or of the correlation matrix. Case matters for the key although
    the generator is called with the upper-cased symbol. *)
Theorem price_history_key_injective (s1 s2 : string) (d1 d2 : Z) :
  (price_history_key s1 d1 = price_history_key s2 d2 -> s1 = s2 /\ d1 = d2) /\
  price_history_key s1 d1 <> "market_summary" /\
  price_history_key s1 d1 <> "correlation_matrix".
Proof.
  unfold price_history_key. split; [| split].
  - intros H. apply string_app_cancel_l in H.
    change ("_" +:+ pretty d1) with (String underscore (pretty d1)) in H.
    change ("_" +:+ pretty d2) with (String underscore (pretty d2)) in H.
    apply split_at_last_underscore in H as [-> H];
      try apply pretty_Z_no_underscore.
    split; [reflexivity |]. now apply (inj pretty) in H.
  - discriminate.
  - discriminate.
Qed.

(** * Further properties of the correlation *)

Section CorrelationMore.
Local Open Scope Q_scope.

Lemma price_matrix_loop_rows syms : forall k envs sim,
  map length (fst (price_matrix_loop syms k envs sim))
  = map (fun _ => 30%nat) syms.
Proof.
  induction syms as [| sym rest IH]; intros k envs sim; cbn [price_matrix_loop];
    [reflexivity |].
  destruct (generate_realistic_price_data sim sym 30 (envs k)) as [prices sim1] eqn:E.
  specialize (IH (S k) envs sim1).
  destruct (price_matrix_loop rest (S k) envs sim1) as [pm sim2].
  cbn [fst map] in *. rewrite IH. f_equal.
  rewrite length_map.
  replace prices with (fst (generate_realistic_price_data sim sym 30 (envs k)))
    by now rewrite E.
  now rewrite generate_price_data_length.
Qed.

Lemma price_matrix_loop_keeps syms : forall k envs sim s p,
  base_prices sim !! s = Some p ->
  base_prices (snd (price_matrix_loop syms k envs sim)) !! s = Some p.
Proof.
  induction syms as [| sym rest IH]; intros k envs sim s p Hs;
    cbn [price_matrix_loop]; [exact Hs |].
  destruct (generate_realistic_price_data sim sym 30 (envs k)) as [prices sim1] eqn:E.
  assert (H1 : base_prices sim1 !! s = Some p).
  { replace sim1 with (snd (generate_realistic_price_data sim sym 30 (envs k)))
      by now rewrite E.
    now apply generate_keeps_registered. }
  specialize (IH (S k) envs sim1 s p H1).
  destruct (price_matrix_loop rest (S k) envs sim1) as [pm sim2]. exact IH.
Qed.

Lemma price_matrix_loop_known syms : forall k envs sim,
  (forall s, In s syms -> is_Some (base_prices sim !! s)) ->
  snd (price_matrix_loop syms k envs sim) = sim.
Proof.
  induction syms as [| sym rest IH]; intros k envs sim Hall;
    cbn [price_matrix_loop]; [reflexivity |].
  destruct (Hall sym (or_introl eq_refl)) as [p Hp].
  pose proof (generate_known sim sym 30 (envs k) p Hp) as Hk.
  destruct (generate_realistic_price_data sim sym 30 (envs k)) as [prices sim1].
  cbn [snd] in Hk. subst sim1.
  specialize (IH (S k) envs sim (fun s H => Hall s (or_intror H))).
  destruct (price_matrix_loop rest (S k) envs sim) as [pm sim2]. exact IH.
Qed.

(** The simulator after a correlation request is the one before it (a hit)
    or the one the five generator calls leave (a miss). *)
Lemma correlation_simulator tm envs app :
  data_simulator (snd (get_correlation_matrix tm envs app)) = data_simulator app \/
  data_simulator (snd (get_correlation_matrix tm envs app))
  = snd (price_matrix_loop major_symbols 0 envs (data_simulator app)).
Proof.
  unfold get_correlation_matrix, cached.
  destruct (TTLCache.contains _ _ _).
  - destruct (TTLCache.getitem _ _ _) as [r c]. left. reflexivity.
  - destruct (price_matrix_loop major_symbols 0 envs (data_simulator app))
      as [pm sim]. unfold store_and_return.
    destruct (TTLCache.setitem _ _ _ _) as [r c]. right. reflexivity.
Qed.
End CorrelationMore.

(** X18. The correlation operation works on five series of thirty closes,
    one per symbol of its fixed basket, and yields a matrix of five rows of
    five entries. It moves no price: every symbol on file keeps its price,
    and when the five symbols of the basket are on file the simulator after
    the request is the simulator before it. *)
Theorem correlation_shape_and_frame (tm : Timer) (envs : nat -> GenEnv) (app : App) :
  let price_matrix :=
    fst (price_matrix_loop major_symbols 0 envs (data_simulator app)) in
  let sim' := data_simulator (snd (get_correlation_matrix tm envs app)) in
  map length price_matrix = [30; 30; 30; 30; 30]%nat /\
  map length (corrcoef price_matrix) = [5; 5; 5; 5; 5]%nat /\
  (forall s p, base_prices (data_simulator app) !! s = Some p ->
               base_prices sim' !! s = Some p) /\
  ((forall s, In s major_symbols ->
      is_Some (base_prices (data_simulator app) !! s)) ->
   sim' = data_simulator app).
Proof.
  cbn zeta.
  pose proof (price_matrix_loop_rows major_symbols 0 envs (data_simulator app))
    as Hrows. cbn [map major_symbols] in Hrows.
  split; [exact Hrows |]. split; [| split].
  - unfold corrcoef. rewrite map_map.
    assert (Hlen : length (fst (price_matrix_loop major_symbols 0 envs
                                  (data_simulator app))) = 5%nat).
    { rewrite <- (length_map length), Hrows. reflexivity. }
    set (pm := fst _) in *.
    rewrite (map_ext _ (fun _ => 5%nat)) by (intros xs; now rewrite length_map).
    do 6 (destruct pm as [| ? pm]; try discriminate Hlen). reflexivity.
  - intros s p Hs. destruct (correlation_simulator tm envs app) as [-> | ->];
      [exact Hs | now apply price_matrix_loop_keeps].
  - intros Hall. destruct (correlation_simulator tm envs app) as [-> | ->];
      [reflexivity | now apply price_matrix_loop_known].
Qed.

Lemma correlation_shape_and_frame_witness :
  data_simulator (snd (get_correlation_matrix (at_time 0) (fun _ => crash_env) app0))
  = data_simulator app0.
Proof.
  apply (correlation_shape_and_frame (at_time 0) (fun _ => crash_env) app0).
  intros s Hs. simpl in Hs.
  repeat (destruct Hs as [<- | Hs]; [vm_compute; eexists; reflexivity |]).
  destruct Hs.
Defined.

(** * The life of the process *)

Section StartUp.
Local Open Scope Q_scope.

Lemma init_base_prices_lookup (u : nat -> Q) (k : nat) (s : string) :
  nth_error tracked_symbols k = Some s ->
  init_base_prices u !! s = Some (uniform 50 500 (u k)).
Proof.
  intros H.
  do 20 (destruct k as [| k]; [injection H as <-; reflexivity |]).
  destruct k; discriminate H.
Qed.

Lemma init_base_prices_others (u : nat -> Q) (s : string) :
  ~ In s tracked_symbols -> init_base_prices u !! s = None.
Proof.
  intros H. unfold init_base_prices.
  cbn [tracked_symbols length seq combine fold_left fst snd].
  rewrite !lookup_insert_ne; [apply lookup_empty | ..];
    intros <-; apply H; cbn; tauto.
Qed.
End StartUp.

(** X20. At start-up, with the unit draws in [0, 1), the simulator tracks
    twenty distinct symbols, has each of them on file at a price within
    [50, 500], and has no other symbol on file. *)
Theorem start_up_prices (u : nat -> Q) :
  (forall k, unit_draw (u k)) ->
  NoDup (symbols (new_simulator u)) /\
  length (symbols (new_simulator u)) = 20%nat /\
  (forall s, In s (symbols (new_simulator u)) ->
     exists p, base_prices (new_simulator u) !! s = Some p /\
               (50 <= p)%Q /\ (p <= 500)%Q) /\
  (forall s, ~ In s (symbols (new_simulator u)) ->
     base_prices (new_simulator u) !! s = None).
Proof.
  intros Hu. cbn [new_simulator symbols base_prices].
  split; [exact tracked_symbols_NoDup |]. split; [reflexivity |]. split.
  - intros s Hs. apply In_nth_error in Hs as [k Hk].
    exists (uniform 50 500 (u k)). split; [now apply init_base_prices_lookup |].
    apply uniform_range; [discriminate | apply Hu].
  - apply init_base_prices_others.
Qed.

Lemma start_up_prices_witness :
  exists p, base_prices (new_simulator (fun _ => 1 # 9)) !! "XLK" = Some p /\
            (50 <= p)%Q /\ (p <= 500)%Q.
Proof.
  destruct (start_up_prices (fun _ => 1 # 9)) as (_ & _ & H & _).
  - intros _. unfold unit_draw. split; [discriminate | reflexivity].
  - apply (H "XLK"). do 19 right. left. reflexivity.
Defined.

Section CacheCapacity.
Implicit Types (c : TTLCache.t CacheValue) (l : list (TTLCache.Link CacheValue)).

Lemma unlink_length k l : (length (TTLCache.unlink k l) <= length l)%nat.
Proof. unfold TTLCache.unlink. apply filter_length_le. Qed.

Lemma unlink_found_length k l e :
  find (TTLCache.is_key k) l = Some e ->
  (S (length (TTLCache.unlink k l)) <= length l)%nat.
Proof.
  unfold TTLCache.unlink. induction l as [| x l IH]; cbn [find]; [discriminate |].
  destruct (TTLCache.is_key k x) eqn:E; cbn [List.filter]; rewrite E; cbn [negb length].
  - intros _. pose proof (filter_length_le (fun e => negb (TTLCache.is_key k e)) l).
    lia.
  - intros H. apply IH in H. lia.
Qed.

Lemma touch_length k l : (length (TTLCache.touch k l) <= length l)%nat.
Proof.
  unfold TTLCache.touch. destruct (find (TTLCache.is_key k) l) as [e |] eqn:E;
    [| lia].
  rewrite length_app. cbn [length]. apply unlink_found_length in E. lia.
Qed.

Lemma expire_length now l : (length (TTLCache.expire now l) <= length l)%nat.
Proof. unfold TTLCache.expire. apply filter_length_le. Qed.

Lemma make_room_length m l l' :
  TTLCache.make_room m l = Some l' ->
  (Z.of_nat (length l') + 1 <= m)%Z /\ (length l' <= length l)%nat.
Proof.
  induction l as [| x l IH]; cbn [TTLCache.make_room].
  - destruct (Z.of_nat (length []) + 1 >? m)%Z eqn:E; [discriminate |].
    intros [= <-]. split; [| lia]. rewrite Z.gtb_ltb in E.
    apply Z.ltb_ge in E. exact E.
  - destruct (Z.of_nat (length (x :: l)) + 1 >? m)%Z eqn:E.
    + intros H. apply IH in H as [H1 H2]. split; [exact H1 | cbn [length]; lia].
    + intros [= <-]. split; [| lia]. rewrite Z.gtb_ltb in E.
      apply Z.ltb_ge in E. exact E.
Qed.

Lemma getitem_healthy c k now :
  healthy_cache c -> healthy_cache (snd (TTLCache.getitem c k now)).
Proof.
  intros (Hm & Ht & Hl). unfold TTLCache.getitem.
  destruct (TTLCache.getlink c k); [| now repeat split].
  cbn [snd]. repeat split; try assumption.
  cbn [TTLCache.links TTLCache.with_links].
  pose proof (touch_length k (TTLCache.links c)). lia.
Qed.

Lemma setitem_healthy c k v now :
  healthy_cache c -> healthy_cache (snd (TTLCache.setitem c k v now)).
Proof.
  intros (Hm & Ht & Hl). unfold TTLCache.setitem.
  pose proof (expire_length now (TTLCache.links c)) as He.
  destruct (1 >? TTLCache.maxsize c)%Z.
  { cbn [snd]. repeat split; try assumption.
    cbn [TTLCache.links TTLCache.with_links]. lia. }
  destruct (find (TTLCache.is_key k) (TTLCache.expire now (TTLCache.links c)))
    as [e |] eqn:Ef.
  - cbn [snd]. repeat split; try assumption.
    cbn [TTLCache.links TTLCache.with_links]. rewrite length_app. cbn [length].
    apply unlink_found_length in Ef. lia.
  - destruct (TTLCache.make_room _ _) as [l' |] eqn:Er; cbn [snd].
    + repeat split; try assumption.
      cbn [TTLCache.links TTLCache.with_links]. rewrite length_app. cbn [length].
      apply make_room_length in Er as [Hr _].
      pose proof (unlink_length k l'). lia.
    + repeat split; try assumption. cbn. lia.
Qed.

Lemma store_and_return_healthy key v tm detail sim c :
  healthy_cache c ->
  data_simulator (snd (store_and_return key v tm detail sim c)) = sim /\
  healthy_cache (cache (snd (store_and_return key v tm detail sim c))).
Proof.
  intros H. unfold store_and_return.
  pose proof (setitem_healthy c key v (t_setitem tm) H) as H'.
  destruct (TTLCache.setitem c key v (t_setitem tm)) as [r c'].
  cbn [snd data_simulator cache] in *. now split.
Qed.

Lemma cached_healthy key tm app producer :
  healthy_cache (cache app) ->
  healthy_cache (cache (snd (producer app))) ->
  healthy_cache (cache (snd (cached key tm app producer))).
Proof.
  intros H Hp. unfold cached. destruct (TTLCache.contains _ _ _); [| exact Hp].
  pose proof (getitem_healthy (cache app) key (t_getitem tm) H) as H'.
  destruct (TTLCache.getitem _ _ _) as [r c]. exact H'.
Qed.

Lemma cached_simulator key tm app producer :
  data_simulator (snd (cached key tm app producer)) = data_simulator app \/
  snd (cached key tm app producer) = snd (producer app).
Proof.
  unfold cached. destruct (TTLCache.contains _ _ _); [| now right].
  destruct (TTLCache.getitem _ _ _) as [r c]. now left.
Qed.
End CacheCapacity.

Section Lifetime.
Local Open Scope Q_scope.

Lemma generate_price_data_symbols sim sym days env :
  symbols (snd (generate_realistic_price_data sim sym days env)) = symbols sim.
Proof.
  destruct (base_prices sim !! sym) as [p |] eqn:E.
  - now rewrite (generate_known _ _ _ _ _ E).
  - now rewrite (generate_unknown _ _ _ _ E).
Qed.

Lemma generate_price_data_healthy sim sym days env :
  healthy_sim sim -> unit_draw (init_u env) ->
  healthy_sim (snd (generate_realistic_price_data sim sym days env)).
Proof.
  intros (Hsym & Hfile & Hpos) Hu.
  destruct (base_prices sim !! sym) as [p |] eqn:E.
  - rewrite (generate_known _ _ _ _ _ E). now repeat split.
  - rewrite (generate_unknown _ _ _ _ E). split; [exact Hsym |].
    cbn [base_prices]. split.
    + intros s Hs. destruct (decide (sym = s)) as [-> | Hne].
      * rewrite lookup_insert_eq. eauto.
      * rewrite lookup_insert_ne by exact Hne. now apply Hfile.
    + intros s q. destruct (decide (sym = s)) as [-> | Hne].
      * rewrite lookup_insert_eq. intros [= <-].
        destruct (uniform_range 50 500 (init_u env)) as [H _];
          [discriminate | exact Hu |]. lra.
      * rewrite lookup_insert_ne by exact Hne. apply Hpos.
Qed.

Lemma generate_market_data_healthy sim env :
  healthy_sim sim -> (forall k, valid_quote (env k)) ->
  healthy_sim (snd (generate_market_data sim env)).
Proof.
  intros (Hsym & Hfile & Hpos) Hvalid. unfold generate_market_data.
  destruct (market_loop_ok (symbols sim) 0 env sim
              (fun s => is_Some (base_prices sim !! s)))
    as (mds & sim' & Hloop & _ & Hpos'); [| | exact Hvalid |].
  - intros s Hs. apply Hfile. now rewrite <- Hsym.
  - intros s [p Hp]. exists p. split; [exact Hp | now apply Hpos with s].
  - rewrite Hloop. cbn [snd]. split; [| split].
    + now rewrite (market_loop_symbols _ _ _ _ _ _ Hloop).
    + intros s Hs. destruct (Hpos' s (Hfile s Hs)) as (p & -> & _). eauto.
    + intros s p Hp.
      assert (Hs : is_Some (base_prices sim !! s)).
      { destruct (in_dec String.string_dec s (symbols sim)) as [Hin | Hout].
        - apply Hfile. now rewrite <- Hsym.
        - rewrite <- (market_loop_frame _ _ _ _ _ _ s Hloop Hout). eauto. }
      destruct (Hpos' s Hs) as (q & Hq & Hq0). rewrite Hp in Hq.
      now injection Hq as ->.
Qed.

Lemma price_matrix_loop_symbols syms : forall k envs sim,
  symbols (snd (price_matrix_loop syms k envs sim)) = symbols sim.
Proof.
  induction syms as [| sym rest IH]; intros k envs sim; cbn [price_matrix_loop];
    [reflexivity |].
  pose proof (generate_price_data_symbols sim sym 30 (envs k)) as H.
  destruct (generate_realistic_price_data sim sym 30 (envs k)) as [prices sim1].
  specialize (IH (S k) envs sim1).
  destruct (price_matrix_loop rest (S k) envs sim1) as [pm sim2].
  cbn [snd] in *. congruence.
Qed.

Lemma price_matrix_loop_healthy syms : forall k envs sim,
  healthy_sim sim -> (forall j, unit_draw (init_u (envs j))) ->
  healthy_sim (snd (price_matrix_loop syms k envs sim)).
Proof.
  induction syms as [| sym rest IH]; intros k envs sim Hh Hu;
    cbn [price_matrix_loop]; [exact Hh |].
  pose proof (generate_price_data_healthy sim sym 30 (envs k) Hh (Hu k)) as H.
  destruct (generate_realistic_price_data sim sym 30 (envs k)) as [prices sim1].
  specialize (IH (S k) envs sim1 H Hu).
  destruct (price_matrix_loop rest (S k) envs sim1) as [pm sim2]. exact IH.
Qed.

(** What a request leaves behind: a cache within its capacity, and the
    simulator of before or the one its generator leaves. *)
Lemma market_summary_state tm env now app :
  healthy_cache (cache app) ->
  healthy_cache (cache (snd (get_market_summary tm env now app))) /\
  (data_simulator (snd (get_market_summary tm env now app)) = data_simulator app \/
   data_simulator (snd (get_market_summary tm env now app))
   = snd (generate_market_data (data_simulator app) env)).
Proof.
  intros Hc. unfold get_market_summary.
  set (producer := fun app0 : App => _).
  assert (Hp : healthy_cache (cache (snd (producer app))) /\
               data_simulator (snd (producer app))
               = snd (generate_market_data (data_simulator app) env)).
  { unfold producer.
    destruct (generate_market_data (data_simulator app) env) as [[mds | ex] sim].
    - destruct (store_and_return_healthy "market_summary"
                  (SummaryValue (summarize mds now)) tm
                  "Failed to generate market summary" sim (cache app) Hc)
        as [H1 H2]. now split.
    - now split. }
  destruct Hp as [Hp1 Hp2]. split.
  - now apply cached_healthy.
  - destruct (cached_simulator "market_summary" tm app producer) as [H | H];
      [now left | right; now rewrite H].
Qed.

Lemma price_history_state symbol days tm env app :
  healthy_cache (cache app) ->
  healthy_cache (cache (snd (get_stock_price_history symbol days tm env app))) /\
  (data_simulator (snd (get_stock_price_history symbol days tm env app))
   = data_simulator app \/
   data_simulator (snd (get_stock_price_history symbol days tm env app))
   = snd (generate_realistic_price_data (data_simulator app) (upper symbol) days env)).
Proof.
  intros Hc. unfold get_stock_price_history.
  destruct (negb _); [split; [exact Hc | now left] |].
  set (key := _ +:+ _).
  set (producer := fun app0 : App => _).
  assert (Hp : healthy_cache (cache (snd (producer app))) /\
               data_simulator (snd (producer app))
               = snd (generate_realistic_price_data (data_simulator app)
                        (upper symbol) days env)).
  { unfold producer.
    destruct (generate_realistic_price_data (data_simulator app) (upper symbol)
                days env) as [prices sim].
    destruct (store_and_return_healthy key (HistoryValue prices) tm
                ("Failed to get price history for " +:+ symbol) sim (cache app) Hc)
      as [H1 H2]. now split. }
  destruct Hp as [Hp1 Hp2]. split.
  - now apply cached_healthy.
  - destruct (cached_simulator key tm app producer) as [H | H];
      [now left | right; now rewrite H].
Qed.

Lemma correlation_state tm envs app :
  healthy_cache (cache app) ->
  healthy_cache (cache (snd (get_correlation_matrix tm envs app))).
Proof.
  intros Hc. unfold get_correlation_matrix. apply cached_healthy; [exact Hc |].
  destruct (price_matrix_loop major_symbols 0 envs (data_simulator app))
    as [pm sim].
  now apply store_and_return_healthy.
Qed.

Lemma serve_symbols r app :
  symbols (data_simulator (snd (serve r app))) = symbols (data_simulator app).
Proof.
  destruct r as [tm env now | symbol days tm env | tm envs]; cbn [serve].
  - unfold get_market_summary.
    set (producer := fun app0 : App => _).
    destruct (cached_simulator "market_summary" tm app producer) as [-> | ->];
      [reflexivity |].
    unfold producer.
    destruct (generate_market_data (data_simulator app) env) as [r sim] eqn:E.
    apply market_loop_symbols in E.
    destruct r as [mds | ex]; [| exact E].
    unfold store_and_return. destruct (TTLCache.setitem _ _ _ _). exact E.
  - unfold get_stock_price_history. destruct (negb _); [reflexivity |].
    set (key := _ +:+ _). set (producer := fun app0 : App => _).
    destruct (cached_simulator key tm app producer) as [-> | ->]; [reflexivity |].
    unfold producer.
    pose proof (generate_price_data_symbols (data_simulator app) (upper symbol)
                  days env) as E.
    destruct (generate_realistic_price_data _ _ _ _) as [prices sim].
    unfold store_and_return. destruct (TTLCache.setitem _ _ _ _). exact E.
  - destruct (correlation_simulator tm envs app) as [-> | ->]; [reflexivity |].
    apply price_matrix_loop_symbols.
Qed.

Lemma serve_healthy_cache r app :
  healthy_cache (cache app) -> healthy_cache (cache (snd (serve r app))).
Proof.
  intros Hc. destruct r as [tm env now | symbol days tm env | tm envs]; cbn [serve].
  - now apply market_summary_state.
  - now apply price_history_state.
  - now apply correlation_state.
Qed.

Lemma serve_healthy r app :
  healthy app -> valid_request r -> healthy (snd (serve r app)).
Proof.
  intros [Hs Hc] Hv. split; [| now apply serve_healthy_cache].
  destruct r as [tm env now | symbol days tm env | tm envs]; cbn [serve] in *.
  - destruct (market_summary_state tm env now app Hc) as [_ [-> | ->]];
      [exact Hs | now apply generate_market_data_healthy].
  - destruct (price_history_state symbol days tm env app Hc) as [_ [-> | ->]];
      [exact Hs | now apply generate_price_data_healthy].
  - destruct (correlation_simulator tm envs app) as [-> | ->];
      [exact Hs | now apply price_matrix_loop_healthy].
Qed.

Lemma boot_healthy u : (forall k, unit_draw (u k)) -> healthy (boot u).
Proof.
  intros Hu. split.
  - cbn [boot data_simulator]. split; [reflexivity |]. split.
    + intros s Hs. apply In_nth_error in Hs as [k Hk].
      cbn [new_simulator base_prices].
      rewrite (init_base_prices_lookup u k s Hk). eauto.
    + intros s p Hp. cbn [new_simulator base_prices] in Hp.
      destruct (in_dec String.string_dec s tracked_symbols) as [Hin | Hout].
      * apply In_nth_error in Hin as [k Hk].
        rewrite (init_base_prices_lookup u k s Hk) in Hp. injection Hp as <-.
        destruct (uniform_range 50 500 (u k)) as [H _];
          [discriminate | apply Hu |]. lra.
      * rewrite (init_base_prices_others u s Hout) in Hp. discriminate.
  - split; [reflexivity |]. split; [reflexivity |]. apply Nat.le_0_l.
Qed.

Lemma serve_all_invariant (P : App -> Prop) (ok : Request -> Prop) :
  (forall r app, P app -> ok r -> P (snd (serve r app))) ->
  forall requests app, P app -> Forall ok requests -> P (serve_all requests app).
Proof.
  intros Hstep requests. unfold serve_all.
  induction requests as [| r rs IH]; intros app Hp Hok; [exact Hp |].
  cbn [fold_left]. apply List.Forall_cons_iff in Hok as [Hr Hrs].
  apply IH; [now apply Hstep | exact Hrs].
Qed.
End Lifetime.

Lemma healthy_prices_positive app : healthy app -> prices_positive (data_simulator app).
Proof.
  intros [(Hsym & Hfile & Hpos) _] s Hs. rewrite Hsym in Hs.
  destruct (Hfile s Hs) as [p Hp]. exists p. split; [exact Hp | now apply Hpos with s].
Qed.

Lemma market_summary_no_http_error tm env now app :
  healthy app -> (forall k, valid_quote (env k)) ->
  forall code detail,
    fst (get_market_summary tm env now app) <> HTTPException code detail.
Proof.
  intros Hh Hvalid code detail.
  destruct (TTLCache.contains (cache app) "market_summary" (t_contains tm)) eqn:Hc.
  - unfold get_market_summary, cached. rewrite Hc.
    destruct (TTLCache.getitem _ _ _) as [[v | ex] c]; discriminate.
  - destruct (market_summary_on_miss tm env now app
                (healthy_prices_positive app Hh) Hvalid Hc)
      as (mds & sim' & _ & _ & _ & -> & _); [| discriminate].
    destruct Hh as [_ (Hm & _)]. rewrite Hm. lia.
Qed.

(** X21. A process that starts with unit draws in [0, 1) and serves any run
    of market-summary, price-history and correlation requests whose unit
    draws are in [0, 1) is always in a state where the twenty tracked
    symbols are on file, every price on file is positive and the cache is
    within its capacity of 1000; in such a state the market summary never
    answers with the HTTP 500 of its except clause. *)
Theorem process_stays_healthy (u : nat -> Q) (requests : list Request) :
  (forall k, unit_draw (u k)) ->
  Forall valid_request requests ->
  healthy (serve_all requests (boot u)) /\
  forall tm env now,
    (forall k, valid_quote (env k)) ->
    forall code detail,
      fst (get_market_summary tm env now (serve_all requests (boot u)))
      <> HTTPException code detail.
Proof.
  intros Hu Hreq.
  assert (Hh : healthy (serve_all requests (boot u))).
  { apply (serve_all_invariant healthy valid_request);
      [exact serve_healthy | now apply boot_healthy | exact Hreq]. }
  split; [exact Hh |].
  intros tm env now Hvalid. now apply market_summary_no_http_error.
Qed.

Lemma sample_requests_valid : Forall valid_request sample_requests.
Proof.
  unfold sample_requests. repeat constructor; cbn; unfold unit_draw; cbn; lra.
Defined.

Lemma process_stays_healthy_witness :
  healthy (serve_all sample_requests (boot (fun _ => 1 # 9))).
Proof.
  apply (process_stays_healthy (fun _ => 1 # 9) sample_requests).
  - intros _. unfold unit_draw. split; [discriminate | reflexivity].
  - exact sample_requests_valid.
Defined.

(** X22. Whatever requests are served, with whatever draws, the symbols
    endpoint reports the twenty symbols of start-up and the count 20: a
    symbol that a price-history request registers is put on file but never
    listed. *)
Theorem symbols_endpoint_constant (u : nat -> Q) (requests : list Request) :
  get_available_symbols (serve_all requests (boot u)) = (tracked_symbols, 20%Z).
Proof.
  assert (H : symbols (data_simulator (serve_all requests (boot u)))
              = tracked_symbols).
  { apply (serve_all_invariant
             (fun app => symbols (data_simulator app) = tracked_symbols)
             (fun _ => True)).
    - intros r app Hp _. now rewrite serve_symbols.
    - reflexivity.
    - apply List.Forall_forall. trivial. }
  unfold get_available_symbols. rewrite H. reflexivity.
Qed.

(** X23. Whatever requests are served, the performance metrics report a
    cache_size between 0 and 1000, cache_maxsize 1000, cache_ttl 300 and
    20 active symbols. *)
Theorem performance_metrics_bounds (u : nat -> Q) (requests : list Request)
    (now : Q) :
  let m := get_performance_metrics now (serve_all requests (boot u)) in
  (0 <= cache_size m <= 1000)%Z /\
  cache_maxsize m = 1000%Z /\
  cache_ttl m = 300%Q /\
  active_symbols m = 20%Z.
Proof.
  assert (H : healthy_cache (cache (serve_all requests (boot u))) /\
              symbols (data_simulator (serve_all requests (boot u)))
              = tracked_symbols).
  { apply (serve_all_invariant
             (fun app => healthy_cache (cache app) /\
                         symbols (data_simulator app) = tracked_symbols)
             (fun _ => True)).
    - intros r app [Hc Hs] _. split;
        [now apply serve_healthy_cache | now rewrite serve_symbols].
    - split; [| reflexivity].
      split; [reflexivity |]. split; [reflexivity |]. apply Nat.le_0_l.
    - apply List.Forall_forall. trivial. }
  destruct H as [(Hm & Ht & Hl) Hs]. cbn zeta.
  unfold get_performance_metrics, cache_len.
  cbn [cache_size cache_maxsize cache_ttl active_symbols].
  rewrite Hs. repeat split; try assumption; try lia.
  pose proof (expire_length now (TTLCache.links (cache (serve_all requests (boot u))))).
  lia.
Qed.

Section Eviction.
Implicit Types (c : TTLCache.t CacheValue) (l : list (TTLCache.Link CacheValue)).

Lemma expire_all_live now l :
  (forall x, In x l -> (now < TTLCache.l_expires x)%Q) -> TTLCache.expire now l = l.
Proof.
  intros H. unfold TTLCache.expire. induction l as [| x l IH]; [reflexivity |].
  cbn [List.filter].
  rewrite (proj2 (unexpired_lt now x) (H x (or_introl eq_refl))).
  f_equal. apply IH. intros y Hy. apply H. now right.
Qed.

Lemma find_absent k l :
  (forall x, In x l -> TTLCache.l_key x <> k) ->
  find (TTLCache.is_key k) l = None /\ TTLCache.unlink k l = l.
Proof.
  intros H. unfold TTLCache.unlink. induction l as [| x l IH]; [now split |].
  cbn [find List.filter].
  assert (E : TTLCache.is_key k x = false).
  { unfold TTLCache.is_key. apply String.eqb_neq. apply H. now left. }
  rewrite E. cbn [negb].
  destruct IH as [IH1 IH2]; [intros y Hy; apply H; now right |].
  split; [exact IH1 | now rewrite IH2].
Qed.

Lemma make_room_fits m l :
  (Z.of_nat (length l) + 1 <= m)%Z -> TTLCache.make_room m l = Some l.
Proof.
  intros H. destruct l as [| x l]; cbn [TTLCache.make_room];
    (destruct (_ >? m)%Z eqn:E; [apply Z.gtb_lt in E; lia | reflexivity]).
Qed.
End Eviction.

(** X24. A full cache makes room by dropping the least recently used
    entry. When the cache holds exactly maxsize entries, all of them live at
    the reading of the timer, storing a value under a key it does not hold
    removes the entry at the least-recently-used end, keeps every other
    entry in its place and puts the new one at the most-recently-used end,
    to expire ttl later. *)
Theorem cache_evicts_least_recently_used (c : TTLCache.t CacheValue)
    (k : string) (v : CacheValue) (now : Q)
    (e : TTLCache.Link CacheValue) (rest : list (TTLCache.Link CacheValue)) :
  TTLCache.links c = e :: rest ->
  Z.of_nat (length (e :: rest)) = TTLCache.maxsize c ->
  (forall x, In x (e :: rest) -> (now < TTLCache.l_expires x)%Q) ->
  (forall x, In x (e :: rest) -> TTLCache.l_key x <> k) ->
  TTLCache.setitem c k v now =
    (Ok tt,
     TTLCache.with_links c
       (rest ++ [{| TTLCache.l_key := k; TTLCache.l_value := v;
                    TTLCache.l_expires := (now + TTLCache.ttl c)%Q |}])).
Proof.
  intros Hl Hfull Hlive Hkeys. unfold TTLCache.setitem.
  rewrite Hl, (expire_all_live now _ Hlive).
  destruct (1 >? TTLCache.maxsize c)%Z eqn:E1.
  { apply Z.gtb_lt in E1. cbn [length] in Hfull. lia. }
  destruct (find_absent k (e :: rest) Hkeys) as [-> _].
  cbn [TTLCache.make_room].
  destruct (Z.of_nat (length (e :: rest)) + 1 >? TTLCache.maxsize c)%Z eqn:E2;
    [| rewrite Z.gtb_ltb in E2; apply Z.ltb_ge in E2; lia].
  rewrite make_room_fits by (cbn [length] in Hfull; lia).
  destruct (find_absent k rest) as [_ ->];
    [intros x Hx; apply Hkeys; now right | reflexivity].
Qed.

Lemma cache_evicts_least_recently_used_witness :
  let old := {| TTLCache.l_key := "correlation_matrix";
                TTLCache.l_value := CorrelationValue [];
                TTLCache.l_expires := 100%Q |} in
  TTLCache.setitem {| TTLCache.maxsize := 1; TTLCache.ttl := 300;
                      TTLCache.links := [old] |}
                   "market_summary" (HistoryValue []) 50%Q
  = (Ok tt,
     {| TTLCache.maxsize := 1; TTLCache.ttl := 300;
        TTLCache.links := [{| TTLCache.l_key := "market_summary";
                              TTLCache.l_value := HistoryValue [];
                              TTLCache.l_expires := (50 + 300)%Q |}] |}).
Proof.
  cbn zeta.
  eapply (cache_evicts_least_recently_used
           {| TTLCache.maxsize := 1; TTLCache.ttl := 300;
              TTLCache.links := [{| TTLCache.l_key := "correlation_matrix";
                                    TTLCache.l_value := CorrelationValue [];
                                    TTLCache.l_expires := 100%Q |}] |}
           "market_summary" (HistoryValue []) 50%Q _ []).
  - reflexivity.
  - reflexivity.
  - intros x [<- | []]. reflexivity.
  - intros x [<- | []]. discriminate.
Defined.

(** * The error path of the snapshot *)

Section MissingSymbol.
Local Open Scope Q_scope.

Lemma market_loop_missing pre : forall i env self s post,
  base_prices self !! s = None ->
  (forall x, In x pre -> exists p, base_prices self !! x = Some p /\ 0 < p) ->
  (forall k, valid_quote (env k)) ->
  fst (market_loop (pre ++ s :: post) i env self) = Raise (KeyError s) /\
  snd (market_loop (pre ++ s :: post) i env self) = snd (market_loop pre i env self).
Proof.
  induction pre as [| y pre IH]; intros i env self s post Hs Hpre Hvalid;
    cbn [app market_loop].
  - rewrite Hs. split; reflexivity.
  - destruct (Hpre y (or_introl eq_refl)) as (stored & Ey & Hpos). rewrite Ey.
    destruct (quote_prices_positive stored (env i) Hpos (Hvalid i)) as [Hcp Hpc].
    destruct (Qeq_bool (quote_prev_close stored (env i)) 0) eqn:Ez.
    { apply Qeq_bool_iff in Ez. rewrite Ez in Hpc. now apply Qlt_irrefl in Hpc. }
    assert (Hys : y <> s) by (intros ->; congruence).
    set (self1 := {| symbols := symbols self;
                     base_prices := <[y := quote_current_price stored (env i)]>
                                      (base_prices self) |}).
    destruct (IH (S i) env self1 s post) as (Hr & Hn); [| | exact Hvalid |].
    + cbn [self1 base_prices]. now rewrite lookup_insert_ne.
    + intros x Hx. cbn [self1 base_prices].
      destruct (decide (y = x)) as [-> | Hne].
      * rewrite lookup_insert_eq. eauto.
      * rewrite lookup_insert_ne by exact Hne. apply Hpre. now right.
    + destruct (market_loop (pre ++ s :: post) (S i) env self1) as [r self2].
      destruct (market_loop pre (S i) env self1) as [r' self2'].
      cbn [fst snd] in *. subst r self2. split; reflexivity.
Qed.
End MissingSymbol.

(** X25. The error path of the snapshot. When a tracked symbol has no price
    on file, while the symbols before it have positive ones and the unit
    draws are in [0, 1), generate_market_data raises KeyError for that
    symbol after it has already advanced the prices of the symbols before
    it; a market-summary request that misses the cache then answers HTTP 500
    "Failed to generate market summary", stores nothing in the cache, and
    leaves those advanced prices in place. *)
Theorem snapshot_missing_symbol (self : FinancialDataSimulator)
    (env : nat -> QuoteDraws) (pre post : list string) (s : string) :
  symbols self = pre ++ s :: post ->
  base_prices self !! s = None ->
  (forall x, In x pre -> exists p, base_prices self !! x = Some p /\ (0 < p)%Q) ->
  (forall k, valid_quote (env k)) ->
  fst (generate_market_data self env) = Raise (KeyError s) /\
  snd (generate_market_data self env) = snd (market_loop pre 0 env self) /\
  forall tm now c,
    TTLCache.contains c "market_summary" (t_contains tm) = false ->
    get_market_summary tm env now {| data_simulator := self; cache := c |}
    = (HTTPException 500 "Failed to generate market summary",
       {| data_simulator := snd (market_loop pre 0 env self); cache := c |}).
Proof.
  intros Hsym Hs Hpre Hvalid. unfold generate_market_data. rewrite Hsym.
  destruct (market_loop_missing pre 0 env self s post Hs Hpre Hvalid) as [Hr Hn].
  split; [exact Hr |]. split; [exact Hn |].
  intros tm now c Hmiss. unfold get_market_summary.
  rewrite cached_miss by exact Hmiss. cbn [data_simulator cache].
  unfold generate_market_data. rewrite Hsym.
  destruct (market_loop (pre ++ s :: post) 0 env self) as [r self'].
  cbn [fst snd] in *. subst r self'. reflexivity.
Qed.

Lemma snapshot_missing_symbol_witness :
  fst (generate_market_data broken_sim (fun _ => steady_quote))
    = Raise (KeyError "GS") /\
  exists p,
    base_prices (snd (generate_market_data broken_sim (fun _ => falling_quote)))
      !! "JPM" = Some p /\ (p == 95)%Q.
Proof.
  split.
  - apply (snapshot_missing_symbol broken_sim (fun _ => steady_quote)
             ["JPM"] ["MS"] "GS").
    + reflexivity.
    + vm_compute. reflexivity.
    + intros x [<- | []]. exists 100%Q. split; [vm_compute |]; reflexivity.
    + intros _. exact (proj1 valid_steady_quote).
  - eexists. split; [vm_compute; reflexivity | reflexivity].
Defined.

(** * Range of the correlation matrix *)

Section CorrelationShape.
Local Open Scope Q_scope.

Lemma positive_of_tests v :
  Qeq_bool v 0 = false -> Qle_bool 0 v = true -> 0 < v.
Proof.
  intros Hz Hle. apply Qle_bool_iff in Hle.
  apply Qle_lteq in Hle as [H | H]; [exact H |].
  symmetry in H. apply Qeq_bool_iff in H. congruence.
Qed.

Lemma unit_within_one (s : bool) :
  nan_or_within_one (Surd (if s then -1 else 1) 1).
Proof. destruct s; cbn; split; reflexivity || discriminate. Qed.

Lemma clip_div_within_one c vx vy :
  nan_or_within_one (clip (div_sqrt (div_sqrt (Surd c 1) vx) vy)).
Proof.
  unfold div_sqrt.
  destruct (Qeq_bool vx 0) eqn:Ex.
  - destruct (Qeq_bool c 0); [exact I |].
    destruct (Qle_bool 0 vy); [apply unit_within_one | exact I].
  - destruct (Qle_bool 0 vx) eqn:Lx; [| exact I].
    destruct (Qeq_bool vy 0) eqn:Ey.
    + destruct (Qeq_bool c 0); [exact I | apply unit_within_one].
    + destruct (Qle_bool 0 vy) eqn:Ly; [| exact I].
      pose proof (positive_of_tests vx Ex Lx) as Hx.
      pose proof (positive_of_tests vy Ey Ly) as Hy.
      unfold clip. destruct (Qle_bool (c * c) (1 * vx * vy)) eqn:Ec.
      * cbn. apply Qle_bool_iff in Ec. split; [nra | exact Ec].
      * destruct (Qle_bool 0 c); cbn; split; reflexivity || discriminate.
Qed.

End CorrelationShape.

(** X26. The matrix the correlation operation returns on a miss stays in
    range: each of its twenty-five entries is NaN or a number within
    [-1, 1]; none is infinite. *)
Theorem correlation_entries_in_range (tm : Timer) (envs : nat -> GenEnv)
    (app : App) :
  TTLCache.contains (cache app) "correlation_matrix" (t_contains tm) = false ->
  (1 <= TTLCache.maxsize (cache app))%Z ->
  exists m,
    fst (get_correlation_matrix tm envs app) = Return (CorrelationValue m) /\
    forall i j, (i < 5)%nat -> (j < 5)%nat ->
      exists a, entry m i j = Some a /\ nan_or_within_one a.
Proof.
  intros Hmiss Hmax.
  exists (corrcoef (fst (price_matrix_loop major_symbols 0 envs (data_simulator app)))).
  split; [now apply correlation_returns_matrix |].
  intros i j Hi Hj.
  pose proof (price_matrix_length envs (data_simulator app)) as Hlen.
  destruct (nth_error (fst (price_matrix_loop major_symbols 0 envs
                              (data_simulator app))) i) as [xs |] eqn:Ei;
    [| apply nth_error_None in Ei; lia].
  destruct (nth_error (fst (price_matrix_loop major_symbols 0 envs
                              (data_simulator app))) j) as [ys |] eqn:Ej;
    [| apply nth_error_None in Ej; lia].
  exists (corr_entry xs ys). split.
  - now apply entry_corrcoef.
  - apply clip_div_within_one.
Qed.

Lemma correlation_entries_in_range_witness :
  exists m,
    fst (get_correlation_matrix (at_time 0) (fun _ => flat_env) app0)
      = Return (CorrelationValue m) /\
    forall i j, (i < 5)%nat -> (j < 5)%nat ->
      exists a, entry m i j = Some a /\ nan_or_within_one a.
Proof.
  apply (correlation_entries_in_range (at_time 0) (fun _ => flat_env) app0).
  - reflexivity.
  - vm_compute. discriminate.
Defined.
